(** * echonest/audio.py: analysis cache and PCM audio buffers

    A shallow embedding of [src/echonest/audio.py] (Python 2):
    - [AudioAnalysis], the attribute-level cache in front of the Echo Nest
      analyze API;
    - [AudioData], a numpy-backed PCM buffer, with its indexing, [__add__],
      [append] and [save];
    - [getpieces], which assembles segments of a buffer into a new one.

    Python exceptions are values of [exn]; a call that can raise returns a
    [result].  Python floats are IEEE binary64 numbers, taken from the
    Standard Library's [SpecFloat].  numpy arrays are modelled for the two
    shapes the module uses, [(n,)] and [(n, c)], with the slicing,
    broadcasting and casting rules the module relies on.  [struct.pack] is
    modelled in its native mode, which [save] uses, for a platform given by
    the size of a C [long] and the byte order.

    The spec names the errors abstractly; the exceptions the module raises
    are [TypeError] for its "invalid argument" and for indexing a buffer
    without an array, and numpy's [ValueError] for its "capacity
    exceeded". *)

From Stdlib Require Import ZArith List String Ascii SpecFloat.
From stdpp Require Import base option list gmap strings.

Local Open Scope Z_scope.

(** ** Exceptions and results *)

Inductive exn :=
  | TypeError | AttributeError | ValueError | IndexError
  | OverflowError | StructError.

Inductive result (A : Type) :=
  | Ok (a : A)
  | Raise (e : exn).
Arguments Ok {A} a.
Arguments Raise {A} e.

Definition bind {A B} (r : result A) (k : A → result B) : result B :=
  match r with
  | Ok a => k a
  | Raise e => Raise e
  end.

Declare Scope py_scope.
Delimit Scope py_scope with py.
Notation "x <- r ;; k" := (bind r (λ x, k))
  (at level 100, r at next level, right associativity) : py_scope.
Local Open Scope py_scope.

(** ** Python floats: IEEE 754 binary64 *)

Module Float.

Definition prec : Z := 53.
Definition emax : Z := 1024.

Abbreviation float := spec_float.

(** [m * 2^e], rounded to the nearest binary64 number. *)
Definition dyadic (m e : Z) : float := binary_normalize prec emax m e false.

(** The conversion Python applies to an [int] operand of a float
    operation. *)
Definition of_int (z : Z) : float := dyadic z 0.

Definition mul : float → float → float := SFmul prec emax.
Definition add : float → float → float := SFadd prec emax.

(** [int(f)]: truncation toward zero; [int(nan)] raises [ValueError],
    [int(inf)] raises [OverflowError]. *)
Definition to_int (f : float) : result Z :=
  match f with
  | S754_zero _ => Ok 0
  | S754_infinity _ => Raise OverflowError
  | S754_nan => Raise ValueError
  | S754_finite s m e =>
      let a := Z.shiftl (Z.pos m) e in
      Ok (if s then - a else a)
  end.

(** [int(f * n)] for a float [f] and an int [n]. *)
Definition scale (f : float) (n : Z) : result Z := to_int (mul f (of_int n)).

End Float.

Export Float (float).

(** ** AudioAnalysis *)

(** Modelled from the spec: the values of the analysis fields.  The fetch
    collaborator "returns the corresponding field value (numeric, string,
    or structured list, depending on field)"; the functions
    [echonest.web.analyze.get_<name>] themselves are not part of the
    module. *)
#[warnings="-register-all"]
Inductive value :=
  | VInt (z : Z)
  | VFloat (f : float)
  | VStr (s : string)
  | VList (l : list value).

(** A Python object: [None], with which the class marks a cached field as
    unset, or a value. *)
Inductive pyval :=
  | PNone
  | PVal (v : value).

Definition CACHED_VARIABLES : list string :=
  [ "bars"; "beats"; "duration"; "end_of_fade_in"; "key"; "loudness";
    "metadata"; "mode"; "sections"; "segments"; "start_of_fade_out";
    "tatums"; "tempo"; "time_signature" ]%string.

(** Calls made to [echonest.web.analyze], in the order they are made. *)
Inductive call :=
  | Upload (audio : string)
  | Fetch (name : string) (id : pyval).

Module AudioAnalysis.

(** An instance is its attribute dictionary. *)
Record t := { attrs : gmap string pyval }.

Definition setattr (self : t) (name : string) (v : pyval) : t :=
  {| attrs := <[name := v]> (attrs self) |}.

(** [object.__getattribute__(self, name)] on the instance dictionary. *)
Definition object_getattribute (self : t) (name : string) : result pyval :=
  match attrs self !! name with
  | Some v => Ok v
  | None => Raise AttributeError
  end.

(** ['.' in audio] *)
Definition contains_dot (audio : string) : bool :=
  existsb (Ascii.eqb ".") (list_ascii_of_string audio).

Section Remote.

(** The collaborators of the class: [os.path.isfile], and the functions of
    [echonest.web.analyze].  [upload audio log] is the text of the
    [thingID] element of the document [analyze.upload(audio)] returns, and
    [getter name id log] is what [analyze.get_<name>(id)] returns, when
    the calls in [log] have been made before. *)
Variable isfile : string → bool.
Variable upload : string → list call → string.
Variable getter : string → pyval → list call → value.

Definition init (audio : pyval) (log : list call) : result t * list call :=
  match audio with
  | PVal (VStr s) =>
      let '(id, log') :=
        if isfile s || contains_dot s
        then (PVal (VStr (upload s log)), log ++ [Upload s])
        else (audio, log) in
      let self := setattr {| attrs := ∅ |} "id" id in
      (Ok (foldl (λ self cachedVar, setattr self cachedVar PNone) self CACHED_VARIABLES),
       log')
  | _ => (Raise TypeError, log)
  end.

Definition getattribute (self : t) (name : string) (log : list call)
  : result pyval * t * list call :=
  if bool_decide (name ∈ CACHED_VARIABLES) then
    match object_getattribute self name with
    | Raise e => (Raise e, self, log)
    | Ok PNone =>
        match object_getattribute self "id" with
        | Raise e => (Raise e, self, log)
        | Ok id =>
            let value := PVal (getter name id log) in
            let self' := setattr self name value in
            (object_getattribute self' name, self', log ++ [Fetch name id])
        end
    | Ok _ => (object_getattribute self name, self, log)
    end
  else (object_getattribute self name, self, log).

Fixpoint refresh_loop (vars : list string) (self : t) (log : list call)
  : result unit * t * list call :=
  match vars with
  | [] => (Ok tt, self, log)
  | cachedVar :: vars' =>
      let self1 := setattr self cachedVar PNone in
      match getattribute self1 cachedVar log with
      | (Raise e, self2, log2) => (Raise e, self2, log2)
      | (Ok _, self2, log2) => refresh_loop vars' self2 log2
      end
  end.

Definition refreshCachedVariables (self : t) (log : list call)
  : result unit * t * list call :=
  refresh_loop CACHED_VARIABLES self log.

End Remote.

(** What [__init__] establishes: the instance has an [id] and every cached
    field, unset or holding a fetched value. *)
Definition constructed (self : t) : Prop :=
  is_Some (attrs self !! "id")
  ∧ ∀ name, name ∈ CACHED_VARIABLES → is_Some (attrs self !! name).

End AudioAnalysis.

(** ** struct.pack in native mode, and files

    The format strings of [save] have no byte-order character, so
    [struct.pack] uses the sizes, alignment and byte order of the C
    compiler of the platform: ['h'] and ['H'] are two bytes everywhere,
    ['l'] and ['L'] are a C [long]. *)

Record platform := { long_size : nat; big_endian : bool }.

(** 32-bit platforms, and 64-bit Windows: a four-byte [long]. *)
Definition ilp32 : platform := {| long_size := 4; big_endian := false |}.
(** 64-bit Linux and macOS: an eight-byte [long]. *)
Definition lp64 : platform := {| long_size := 8; big_endian := false |}.

Module struct.

Inductive code := l | h | H | L.

Definition size (p : platform) (c : code) : nat :=
  match c with
  | l | L => long_size p
  | h | H => 2
  end.

Definition signed (c : code) : bool :=
  match c with
  | l | h => true
  | H | L => false
  end.

Definition byte (z : Z) : ascii := ascii_of_N (Z.to_N (z mod 256)).

Fixpoint little_endian (n : nat) (z : Z) : list ascii :=
  match n with
  | O => []
  | S n' => byte z :: little_endian n' (z / 256)
  end.

Definition encode (p : platform) (n : nat) (z : Z) : list ascii :=
  if big_endian p then reverse (little_endian n z) else little_endian n z.

Definition in_range (p : platform) (c : code) (z : Z) : bool :=
  let bits := 8 * Z.of_nat (size p c) in
  if signed c then (- 2 ^ (bits - 1) <=? z) && (z <? 2 ^ (bits - 1))
  else (0 <=? z) && (z <? 2 ^ bits).

(** Zero bytes up to the next multiple of the size of the item. *)
Definition padding (p : platform) (c : code) (offset : nat) : list ascii :=
  let a := size p c in
  replicate ((a - offset mod a) mod a) zero.

Fixpoint pack_from (p : platform) (offset : nat) (fmt : list code) (vals : list Z)
  : result (list ascii) :=
  match fmt, vals with
  | [], [] => Ok []
  | c :: fmt', v :: vals' =>
      if in_range p c v then
        let bytes := padding p c offset ++ encode p (size p c) v in
        rest <- pack_from p (offset + length bytes) fmt' vals' ;;
        Ok (bytes ++ rest)
      else Raise StructError
  | _, _ => Raise StructError
  end.

Definition pack (p : platform) (fmt : list code) (vals : list Z) : result (list ascii) :=
  pack_from p 0 fmt vals.

Definition byte_value (c : ascii) : Z := Z.of_N (N_of_ascii c).

(** The signed 16-bit number held by two bytes in the byte order of the
    platform. *)
Definition decode_h (p : platform) (b0 b1 : ascii) : Z :=
  let '(lo, hi) := if big_endian p then (b1, b0) else (b0, b1) in
  let u := byte_value lo + 256 * byte_value hi in
  if u <? 32768 then u else u - 65536.

Fixpoint decode_all (p : platform) (raw : list ascii) : list Z :=
  match raw with
  | b0 :: b1 :: raw' => decode_h p b0 b1 :: decode_all p raw'
  | _ => []
  end.

(** [struct.unpack("%sh" % count, raw)]: [count] items ['h'] in native
    mode.  The string must hold exactly the bytes the format asks for, and
    a negative count is no format. *)
Definition unpack_h (p : platform) (count : Z) (raw : list ascii) : result (list Z) :=
  if (count <? 0) || negb (Z.of_nat (length raw) =? 2 * count) then Raise StructError
  else Ok (decode_all p raw).

End struct.

(** A file opened with mode ['wb']: its bytes and the position of the next
    write. *)
Record file := { content : list ascii; pos : nat }.

Definition fopen : file := {| content := []; pos := 0 |}.

Definition write (bytes : list ascii) (fid : file) : file :=
  {| content := take (pos fid) (content fid) ++ bytes
                ++ drop (pos fid + length bytes) (content fid);
     pos := pos fid + length bytes |}.

Definition tell (fid : file) : Z := Z.of_nat (pos fid).

Definition seek (offset : nat) (fid : file) : file :=
  {| content := content fid; pos := offset |}.

Definition str (s : string) : list ascii := list_ascii_of_string s.

(** ** numpy arrays

    An array is one-dimensional, of shape [(n,)], or two-dimensional, of
    shape [(n, cols)]: one row per frame.  The entries are integers; an
    entry stored into an [int16] array is cast by [wrap16]. *)

Inductive ndarray :=
  | Arr1 (xs : list Z)
  | Arr2 (cols : nat) (rows : list (list Z)).

Inductive shape :=
  | Shape1 (n : Z)
  | Shape2 (n : Z) (c : Z).

Module np.

Definition wrap16 (z : Z) : Z := (z + 32768) mod 65536 - 32768.

Definition len (a : ndarray) : Z :=
  match a with
  | Arr1 xs => Z.of_nat (length xs)
  | Arr2 _ rows => Z.of_nat (length rows)
  end.

Definition shape_of (a : ndarray) : shape :=
  match a with
  | Arr1 xs => Shape1 (Z.of_nat (length xs))
  | Arr2 c rows => Shape2 (Z.of_nat (length rows)) (Z.of_nat c)
  end.

(** Every row of a two-dimensional array has [cols] entries. *)
Definition wf (a : ndarray) : Prop :=
  match a with
  | Arr1 _ => True
  | Arr2 c rows => Forall (λ r, length r = c) rows
  end.

(** [numpy.zeros(shape, dtype=numpy.int16)]; a negative dimension raises
    [ValueError]. *)
Definition zeros (sh : shape) : result ndarray :=
  match sh with
  | Shape1 n =>
      if n <? 0 then Raise ValueError
      else Ok (Arr1 (replicate (Z.to_nat n) 0))
  | Shape2 n c =>
      if (n <? 0) || (c <? 0) then Raise ValueError
      else Ok (Arr2 (Z.to_nat c) (replicate (Z.to_nat n) (replicate (Z.to_nat c) 0)))
  end.

(** [slice(start, stop, step).indices(len)], with the length of the
    selection: the first index, the step and the number of indices. *)
Definition slice_indices (start stop step : option Z) (len : Z) : result (Z * Z * Z) :=
  let st := default 1 step in
  if st =? 0 then Raise ValueError
  else
    let adjust (b : Z) :=
      if b <? 0 then
        (if b + len <? 0 then (if st <? 0 then -1 else 0) else b + len)
      else if len <=? b then (if st <? 0 then len - 1 else len)
      else b in
    let s := match start with
             | None => if st <? 0 then len - 1 else 0
             | Some b => adjust b
             end in
    let e := match stop with
             | None => if st <? 0 then -1 else len
             | Some b => adjust b
             end in
    let n := if st <? 0
             then (if e <? s then (s - e - 1) / (- st) + 1 else 0)
             else (if s <? e then (e - s - 1) / st + 1 else 0) in
    Ok (s, st, n).

(** [l[start:stop:step]] along the first axis. *)
Definition select {A} (l : list A) (start stop step : option Z) : result (list A) :=
  ix <- slice_indices start stop step (Z.of_nat (length l)) ;;
  let '(s, st, n) := ix in
  Ok (omap (λ k : nat, l !! Z.to_nat (s + Z.of_nat k * st)) (seq 0 (Z.to_nat n))).

Definition getslice (a : ndarray) (start stop step : option Z) : result ndarray :=
  match a with
  | Arr1 xs => xs' <- select xs start stop step ;; Ok (Arr1 xs')
  | Arr2 c rows => rows' <- select rows start stop step ;; Ok (Arr2 c rows')
  end.

(** [l[i]] for an integer [i]: negative indices count from the end, and an
    index out of range raises [IndexError]. *)
Definition item {A} (l : list A) (i : Z) : result A :=
  let n := Z.of_nat (length l) in
  let j := if i <? 0 then i + n else i in
  if (j <? 0) || (n <=? j) then Raise IndexError
  else match l !! Z.to_nat j with
       | Some x => Ok x
       | None => Raise IndexError
       end.

(** Broadcasting along one axis: a source of the target length is taken as
    it is, a source of length one is repeated, any other raises
    [ValueError]. *)
Definition broadcast {A} (k : nat) (src : list A) : result (list A) :=
  if decide (length src = k) then Ok src
  else match src with
       | [x] => Ok (replicate k x)
       | _ => Raise ValueError
       end.

Definition stretch (c : nat) (row : list Z) : list Z :=
  match row with
  | [x] => replicate c x
  | _ => row
  end.

(** The [k] rows assigned by [dst[lo:lo+k] = src], for a one-dimensional
    [dst].  A two-dimensional source must have one row, which is then
    taken as a one-dimensional array. *)
Definition source1 (k : nat) (src : ndarray) : result (list Z) :=
  match src with
  | Arr1 ys => broadcast k ys
  | Arr2 _ [row] => broadcast k row
  | Arr2 _ _ => Raise ValueError
  end.

(** The same for a [dst] of shape [(n, c)]. *)
Definition source2 (c k : nat) (src : ndarray) : result (list (list Z)) :=
  match src with
  | Arr1 ys => row <- broadcast c ys ;; Ok (replicate k row)
  | Arr2 c' rows' =>
      if decide (c' = c) then broadcast k rows'
      else if decide (c' = 1%nat) then broadcast k (map (stretch c) rows')
      else Raise ValueError
  end.

(** [dst[start:stop] = src] on an [int16] array [dst]. *)
Definition setslice (dst : ndarray) (start stop : Z) (src : ndarray) : result ndarray :=
  ix <- slice_indices (Some start) (Some stop) None (len dst) ;;
  let lo := Z.to_nat ix.1.1 in
  let k := Z.to_nat ix.2 in
  match dst with
  | Arr1 xs =>
      new <- source1 k src ;;
      Ok (Arr1 (take lo xs ++ map wrap16 new ++ drop (lo + k) xs))
  | Arr2 c rows =>
      new <- source2 c k src ;;
      Ok (Arr2 c (take lo rows ++ map (map wrap16) new ++ drop (lo + k) rows))
  end.

(** [dtype.itemsize] of [int16]. *)
Definition itemsize : Z := 2.

(** [ndarray.nbytes] of an [int16] array. *)
Definition nbytes (a : ndarray) : Z :=
  match a with
  | Arr1 xs => Z.of_nat (length xs) * itemsize
  | Arr2 c rows => Z.of_nat (length rows) * Z.of_nat c * itemsize
  end.

(** The bytes [ndarray.tofile] writes for an [int16] array: the entries in
    row-major order, each in the byte order of the platform. *)
Definition tofile (p : platform) (a : ndarray) : list ascii :=
  let entries := match a with
                 | Arr1 xs => xs
                 | Arr2 _ rows => concat rows
                 end in
  concat (map (struct.encode p 2) entries).

(** The rows of [cols] entries a flat list is cut into. *)
Fixpoint chunks (rows cols : nat) (flat : list Z) : list (list Z) :=
  match rows with
  | O => []
  | S rows' => take cols flat :: chunks rows' cols (drop cols flat)
  end.

(** [numpy.reshape(a, (rows, cols))] of a one-dimensional array; the sizes
    must agree. *)
Definition reshape (flat : list Z) (rows cols : Z) : result ndarray :=
  if (rows <? 0) || (cols <? 0)
     || negb (Z.of_nat (length flat) =? rows * cols)
  then Raise ValueError
  else Ok (Arr2 (Z.to_nat cols) (chunks (Z.to_nat rows) (Z.to_nat cols) flat)).

(** [numpy.concatenate((a, b))] along the first axis. *)
Definition concatenate (a b : ndarray) : result ndarray :=
  match a, b with
  | Arr1 xs, Arr1 ys => Ok (Arr1 (xs ++ ys))
  | Arr2 c rows, Arr2 c' rows' =>
      if decide (c = c') then Ok (Arr2 c (rows ++ rows')) else Raise ValueError
  | _, _ => Raise ValueError
  end.

End np.

(** ** Segment descriptors and indices *)

(** An object with a [start] and a [duration], in seconds. *)
Record segment := { start : float; duration : float }.

(** A bound of a slice object. *)
Inductive bound :=
  | BNone
  | BInt (i : Z)
  | BFloat (f : float)
  | BSeg (s : segment).

(** What [AudioData.__getitem__] is given. *)
Inductive index :=
  | IInt (i : Z)
  | IFloat (f : float)
  | ISeg (s : segment)
  | ISlice (lo hi : bound) (step : option Z).

(** ** AudioData *)

Module AudioData.

Record t := {
  data : option ndarray;
  endindex : Z;
  samplerate : Z;
  numchannels : Z
}.

(** What indexing returns: an entry of a one-dimensional array, a row of a
    two-dimensional one, or a new [AudioData]. *)
Inductive item :=
  | Sample (v : Z)
  | Frame (row : list Z)
  | Buffer (b : t).

(** The defaults of the keyword arguments of the constructor. *)
Definition default_samplerate : Z := 44100.
Definition default_numchannels : Z := 2.

Definition init (ndarray : option ndarray) (shape : option shape)
    (samplerate numchannels : Z) : result t :=
  data0 <- match shape, ndarray with
           | None, Some a => d <- np.zeros (np.shape_of a) ;; Ok (Some d)
           | Some sh, _ => d <- np.zeros sh ;; Ok (Some d)
           | None, None => Ok None
           end ;;
  match ndarray with
  | None =>
      Ok {| data := data0; endindex := 0;
            samplerate := samplerate; numchannels := numchannels |}
  | Some a =>
      let endindex := np.len a in
      match data0 with
      | None => Raise TypeError
      | Some d =>
          d' <- np.setslice d 0 endindex a ;;
          Ok {| data := Some d'; endindex := endindex;
                samplerate := samplerate; numchannels := numchannels |}
      end
  end.

(** [int(f * self.samplerate)] *)
Definition seconds (self : t) (f : float) : result Z :=
  Float.scale f (samplerate self).

(** A bound handed to numpy as it is: [None] or an integer; numpy takes no
    other bound. *)
Definition int_bound (b : bound) : result (option Z) :=
  match b with
  | BNone => Ok None
  | BInt i => Ok (Some i)
  | BFloat _ | BSeg _ => Raise TypeError
  end.

Definition getslice (self : t) (lo hi : bound) (step : option Z) : result t :=
  ix <- match lo with
        | BFloat f =>
            l <- seconds self f ;;
            h <- match hi with
                 | BFloat g => seconds self g
                 | BInt j => Ok (j * samplerate self)
                 | BNone | BSeg _ => Raise TypeError
                 end ;;
            Ok (Some l, Some h)
        | _ =>
            l <- int_bound lo ;;
            h <- int_bound hi ;;
            Ok (l, h)
        end ;;
  match data self with
  | None => Raise TypeError
  | Some d =>
      a <- np.getslice d ix.1 ix.2 step ;;
      init (Some a) None (samplerate self) default_numchannels
  end.

Definition getsample (self : t) (index : index) : result item :=
  match data self with
  | None => Raise TypeError
  | Some d =>
      match index with
      | IInt i =>
          match d with
          | Arr1 xs => x <- np.item xs i ;; Ok (Sample x)
          | Arr2 _ rows => r <- np.item rows i ;; Ok (Frame r)
          end
      | ISlice lo hi step =>
          l <- int_bound lo ;;
          h <- int_bound hi ;;
          a <- np.getslice d l h step ;;
          b <- init (Some a) None default_samplerate default_numchannels ;;
          Ok (Buffer b)
      | IFloat _ | ISeg _ => Raise IndexError
      end
  end.

Definition getitem (self : t) (index : index) : result item :=
  index1 <- match index with
            | IFloat f => i <- seconds self f ;; Ok (IInt i)
            | ISeg s =>
                Ok (ISlice (BFloat (start s))
                           (BFloat (Float.add (start s) (duration s))) None)
            | _ => Ok index
            end ;;
  let index2 :=
    match index1 with
    | ISlice (BSeg a) (BSeg b) _ =>
        ISlice (BFloat (start a)) (BFloat (Float.add (start b) (duration b))) None
    | _ => index1
    end in
  match index2 with
  | ISlice lo hi step => b <- getslice self lo hi step ;; Ok (Buffer b)
  | _ => getsample self index2
  end.

Definition add (self as2 : t) : result t :=
  match data self with
  | None =>
      match data as2 with
      | None => Raise AttributeError
      | Some d2 => init (Some d2) None default_samplerate default_numchannels
      end
  | Some d1 =>
      match data as2 with
      | None => init (Some d1) None default_samplerate default_numchannels
      | Some d2 =>
          a <- np.concatenate d1 d2 ;;
          init (Some a) None default_samplerate default_numchannels
      end
  end.

Definition len (self : t) : Z :=
  match data self with
  | Some d => np.len d
  | None => 0
  end.

(** [append]: [Ok] of the buffer as the call leaves it.  When the call
    raises, the buffer is as it was: the assignment of line 182 raises
    before it stores anything, and line 183 is not reached. *)
Definition append (self as2 : t) : result t :=
  match data as2 with
  | None => Raise TypeError
  | Some d2 =>
      rhs <- np.getslice d2 (Some 0) None None ;;
      match data self with
      | None => Raise TypeError
      | Some d =>
          d' <- np.setslice d (endindex self) (endindex self + len as2) rhs ;;
          Ok {| data := Some d'; endindex := endindex self + len as2;
                samplerate := samplerate self; numchannels := numchannels self |}
      end
  end.

(** The format string ['lhHLLHH']. *)
Definition fmt_format : list struct.code :=
  [struct.l; struct.h; struct.H; struct.L; struct.L; struct.H; struct.H].

(** [save]: the result, and the file as the call leaves it. *)
Definition save (p : platform) (self : t) : result unit * file :=
  let fid := fopen in
  let fid := write (str "RIFF") fid in
  let fid := write [zero; zero; zero; zero] fid in
  let fid := write (str "WAVE") fid in
  let fid := write (str "fmt ") fid in
  match data self with
  | None => (Raise AttributeError, fid)
  | Some d =>
      let noc := match d with
                 | Arr1 _ => 1
                 | Arr2 c _ => Z.of_nat c
                 end in
      let bits := np.itemsize * 8 in
      let sbytes := samplerate self * (bits / 8) * noc in
      let ba := noc * (bits / 8) in
      match struct.pack p fmt_format [16; 1; noc; samplerate self; sbytes; ba; bits] with
      | Raise e => (Raise e, fid)
      | Ok header =>
          let fid := write header fid in
          let fid := write (str "data") fid in
          match struct.pack p [struct.l] [np.nbytes d] with
          | Raise e => (Raise e, fid)
          | Ok n =>
              let fid := write n fid in
              let fid := write (np.tofile p d) fid in
              let size := tell fid in
              let fid := seek 4 fid in
              match struct.pack p [struct.l] [size - 8] with
              | Raise e => (Raise e, fid)
              | Ok n' => (Ok tt, write n' fid)
              end
          end
      end
  end.

End AudioData.

(** ** getpieces *)

Fixpoint total_duration (samplerate : Z) (segs : list segment) (dur : Z) : result Z :=
  match segs with
  | [] => Ok dur
  | s :: segs' =>
      d <- Float.scale (duration s) samplerate ;;
      total_duration samplerate segs' (dur + d)
  end.

Fixpoint append_pieces (audioData : AudioData.t) (segs : list segment)
    (newAD : AudioData.t) : result AudioData.t :=
  match segs with
  | [] => Ok newAD
  | s :: segs' =>
      piece <- AudioData.getitem audioData (ISeg s) ;;
      match piece with
      | AudioData.Buffer b =>
          newAD' <- AudioData.append newAD b ;;
          append_pieces audioData segs' newAD'
      | _ => Raise AttributeError
      end
  end.

Definition padding : Z := 100000.

Definition getpieces (audioData : AudioData.t) (segs : list segment) : result AudioData.t :=
  dur <- total_duration (AudioData.samplerate audioData) segs 0 ;;
  let dur := dur + padding in
  match AudioData.data audioData with
  | None => Raise AttributeError
  | Some d =>
      let '(newshape, newchans) :=
        match d with
        | Arr2 c _ => (Shape2 dur (Z.of_nat c), Z.of_nat c)
        | Arr1 _ => (Shape1 dur, 1)
        end in
      newAD <- AudioData.init None (Some newshape)
                 (AudioData.samplerate audioData) newchans ;;
      append_pieces audioData segs newAD
  end.

(** ** Python strings

    A [str] of Python 2 is a string of bytes. *)

Module pystr.

(** [s.startswith(p)] *)
Fixpoint startswith (p s : list ascii) : bool :=
  match p, s with
  | [], _ => true
  | a :: p', b :: s' => Ascii.eqb a b && startswith p' s'
  | _ :: _, [] => false
  end.

(** [sub in s] *)
Fixpoint contains (sub s : list ascii) : bool :=
  startswith sub s
  || match s with
     | [] => false
     | _ :: s' => contains sub s'
     end.

(** [s.split(sep)] for a separator that is not empty: [s] is read from the
    left, [cur] is the piece being read, and [skip] counts the characters
    left of a separator that has been recognised. *)
Fixpoint split_aux (sep : list ascii) (skip : nat) (cur s : list ascii)
  : list (list ascii) :=
  match s with
  | [] => [cur]
  | c :: s' =>
      match skip with
      | S k => split_aux sep k cur s'
      | O =>
          if startswith sep s
          then cur :: split_aux sep (length sep - 1) [] s'
          else split_aux sep 0 (cur ++ [c]) s'
      end
  end.

Definition split (sep s : list ascii) : list (list ascii) := split_aux sep 0 [] s.

(** The characters [str.isspace] holds of: space, and the control
    characters 9 to 13. *)
Definition isspace (c : ascii) : bool :=
  let n := N_of_ascii c in
  (n =? 32)%N || ((9 <=? n)%N && (n <=? 13)%N).

Fixpoint lstrip (s : list ascii) : list ascii :=
  match s with
  | c :: s' => if isspace c then lstrip s' else s
  | [] => []
  end.

Definition strip (s : list ascii) : list ascii :=
  reverse (lstrip (reverse (lstrip s))).

Definition digit (c : ascii) : option Z :=
  let n := N_of_ascii c in
  if (48 <=? n)%N && (n <=? 57)%N then Some (Z.of_N n - 48) else None.

Fixpoint digits_value (acc : Z) (s : list ascii) : option Z :=
  match s with
  | [] => Some acc
  | c :: s' =>
      match digit c with
      | Some d => digits_value (10 * acc + d) s'
      | None => None
      end
  end.

(** [int(s)]: white space around, an optional sign, and decimal digits, at
    least one; anything else raises [ValueError]. *)
Definition int (s : list ascii) : result Z :=
  let t := strip s in
  let '(negative, ds) :=
    match t with
    | c :: r =>
        if Ascii.eqb c "-" then (true, r)
        else if Ascii.eqb c "+" then (false, r)
        else (false, t)
    | [] => (false, t)
    end in
  match ds with
  | [] => Raise ValueError
  | _ =>
      match digits_value 0 ds with
      | Some n => Ok (if negative then - n else n)
      | None => Raise ValueError
      end
  end.

End pystr.

(** ** audiosettingsfromffmpeg

    The functions return their result together with the lines they print. *)

(** The loop over the pieces of a line, lines 265 to 274. *)
Fixpoint scan_segs (segs : list (list ascii)) (freq chans : Z)
    (out : list (list ascii)) : result (Z * Z) * list (list ascii) :=
  match segs with
  | [] => (Ok (freq, chans), out)
  | s :: segs' =>
      if pystr.contains (str "Hz") s then
        let token := hd [] (pystr.split (str " ") s) in
        let out' := out ++ [str "FOUND: " ++ token] in
        match pystr.int token with
        | Raise e => (Raise e, out')
        | Ok f => scan_segs segs' f chans out'
        end
      else if pystr.contains (str "stereo") s then
        scan_segs segs' freq 2 (out ++ [str "STEREO"])
      else if pystr.contains (str "mono") s then
        scan_segs segs' freq 1 (out ++ [str "MONO"])
      else scan_segs segs' freq chans out
  end.

(** A line that describes an audio stream, line 263. *)
Definition audio_stream_line (line : list ascii) : bool :=
  pystr.contains (str "Stream #0") line && pystr.contains (str "Audio") line.

(** The loop over the lines, lines 262 to 274. *)
Fixpoint scan_lines (lines : list (list ascii)) (freq chans : Z)
    (out : list (list ascii)) : result (Z * Z) * list (list ascii) :=
  match lines with
  | [] => (Ok (freq, chans), out)
  | line :: lines' =>
      if audio_stream_line line then
        match scan_segs (pystr.split (str ", ") line) freq chans out with
        | (Raise e, out') => (Raise e, out')
        | (Ok (f, c), out') => scan_lines lines' f c out'
        end
      else scan_lines lines' freq chans out
  end.

Definition newline : ascii := ascii_of_N 10.

Definition audiosettingsfromffmpeg (parsestring : list ascii)
  : result (Z * Z) * list (list ascii) :=
  scan_lines (pystr.split [newline] parsestring) 44100 2 [].

(** ** load *)

Definition dquote : ascii := ascii_of_N 34.

Section Load.

(** The platform, and the collaborators of [load]: the path
    [tempfile.mkstemp] returns, the output of a shell command, and what the
    [wave] module reads from a file, the number of frames and the bytes of
    these frames, or the exception it raises; the last two depend on the
    commands that have been run before. *)
Variable p : platform.
Variable mkstemp : list ascii.
Variable getstatusoutput : list (list ascii) → list ascii → list ascii.
Variable wave_open : list (list ascii) → list ascii → result (Z * list ascii).

(** Lines 244 to 255, for the file [file] once the commands [ran] have been
    run. *)
Definition load_wave (ran : list (list ascii)) (file : list ascii)
    (samples channels : Z) : result AudioData.t :=
  w <- wave_open ran file ;;
  let '(nframes, raw) := w in
  let sampleSize := nframes * channels in
  data <- struct.unpack_h p sampleSize raw ;;
  numpyarr <- (if channels =? 2 then np.reshape data nframes 2 else Ok (Arr1 data)) ;;
  AudioData.init (Some numpyarr) None samples channels.

(** [load]: the result, the commands run, and the lines printed. *)
Definition load (file : list ascii) (samples channels : option Z)
  : result AudioData.t * list (list ascii) * list (list ascii) :=
  match samples, channels with
  | Some samples, Some channels => (load_wave [] file samples channels, [], [])
  | _, _ =>
      let dest := mkstemp in
      let cmd := str "ffmpeg -y -i " ++ [dquote] ++ file ++ [dquote]
                 ++ str " -ar 44100 -ac 2 " ++ dest in
      let probe := str "ffmpeg -i " ++ dest in
      let parsestring := getstatusoutput [cmd] probe in
      match audiosettingsfromffmpeg parsestring with
      | (Raise e, out) => (Raise e, [cmd; probe], cmd :: out)
      | (Ok (samples, channels), out) =>
          (load_wave [cmd; probe] dest samples channels, [cmd; probe], cmd :: out)
      end
  end.

End Load.

(** ** Reading several attributes

    [[getattr(self, name) for name in names]]: the attributes [names] read
    one after the other, as a user of the class reads them. *)


(** ** Vocabulary of the statements *)

(** The array cast to [int16], as numpy casts what is stored into an
    [int16] array. *)
Definition astype16 (a : ndarray) : ndarray :=
  match a with
  | Arr1 xs => Arr1 (map np.wrap16 xs)
  | Arr2 c rows => Arr2 c (map (map np.wrap16) rows)
  end.

Definition is_int16 (z : Z) : Prop := -32768 ≤ z ≤ 32767.

(** Every entry is an [int16] number, as in an array of that dtype. *)
Definition int16_array (a : ndarray) : Prop :=
  match a with
  | Arr1 xs => Forall is_int16 xs
  | Arr2 _ rows => Forall (Forall is_int16) rows
  end.

(** Both one-dimensional, or both two-dimensional with as many columns. *)
Definition same_row_shape (a b : ndarray) : Prop :=
  match a, b with
  | Arr1 _, Arr1 _ => True
  | Arr2 c _, Arr2 c' _ => c = c'
  | _, _ => False
  end.

(** The frames of [a] at the positions [lo ≤ i < hi]. *)
Definition between (lo hi : nat) (a : ndarray) : ndarray :=
  match a with
  | Arr1 xs => Arr1 (take (hi - lo) (drop lo xs))
  | Arr2 c rows => Arr2 c (take (hi - lo) (drop lo rows))
  end.

(** [dst] with the frames of [src] written over its frames from the
    position [lo] on, for arrays of the same row shape. *)
Definition overwrite (dst : ndarray) (lo : nat) (src : ndarray) : ndarray :=
  match dst, src with
  | Arr1 xs, Arr1 ys => Arr1 (take lo xs ++ ys ++ drop (lo + length ys) xs)
  | Arr2 c rows, Arr2 _ rows' =>
      Arr2 c (take lo rows ++ rows' ++ drop (lo + length rows') rows)
  | _, _ => dst
  end.

(** [a] followed by [b], for arrays of the same row shape. *)
Definition followed_by (a b : ndarray) : ndarray :=
  match a, b with
  | Arr1 xs, Arr1 ys => Arr1 (xs ++ ys)
  | Arr2 c rows, Arr2 _ rows' => Arr2 c (rows ++ rows')
  | _, _ => a
  end.

(** The number of frames. *)
Definition count (a : ndarray) : nat :=
  match a with
  | Arr1 xs => length xs
  | Arr2 _ rows => length rows
  end.

(** No frame, and [n] frames of zeros, in the row shape of [like]. *)
Definition silence (like : ndarray) (n : nat) : ndarray :=
  match like with
  | Arr1 _ => Arr1 (replicate n 0)
  | Arr2 c _ => Arr2 c (replicate n (replicate c 0))
  end.

Definition empty_like (like : ndarray) : ndarray := silence like 0.

(** The arrays [ps] one after the other. *)
Definition joined (like : ndarray) (ps : list ndarray) : ndarray :=
  foldr followed_by (empty_like like) ps.

Definition total (l : list Z) : Z := foldr Z.add 0 l.

Definition total_count (ps : list ndarray) : nat := foldr (λ p n, (count p + n)%nat) 0%nat ps.

(** The channel count [getpieces] gives the buffer it builds. *)
Definition channels (a : ndarray) : Z :=
  match a with
  | Arr1 _ => 1
  | Arr2 c _ => Z.of_nat c
  end.

(** The frame of [a] at the position [k], as indexing returns it. *)
Definition frame_at (a : ndarray) (k : nat) : option AudioData.item :=
  match a with
  | Arr1 xs => AudioData.Sample <$> xs !! k
  | Arr2 _ rows => AudioData.Frame <$> rows !! k
  end.


(** [AudioData(a)] for an [int16] array [a]: a full buffer with the
    defaults of the constructor, or with the sample rate [sr]. *)
Definition buffer_at (sr : Z) (a : ndarray) : AudioData.t :=
  {| AudioData.data := Some a;
     AudioData.endindex := np.len a;
     AudioData.samplerate := sr;
     AudioData.numchannels := AudioData.default_numchannels |}.

Definition buffer_of (a : ndarray) : AudioData.t :=
  buffer_at AudioData.default_samplerate a.

(** Modelled on the claim's words, [round(x)]: the integer nearest to a
    float, halves away from zero as Python 2 rounds. *)
Definition round_to_int (f : float) : result Z :=
  match f with
  | S754_zero _ => Ok 0
  | S754_infinity _ => Raise OverflowError
  | S754_nan => Raise ValueError
  | S754_finite s m e =>
      let a := (Z.shiftl (Z.pos m) (e + 1) + 1) / 2 in
      Ok (if s then - a else a)
  end.

(** ** Example collaborators and objects *)

(** No file exists, an upload yields the identifier ["TR1"], and every
    analysis attribute of a track is fetched as the integer 7. *)
Definition no_file : string → bool := λ _, false.
Definition upload_TR1 : string → list call → string := λ _ _, "TR1"%string.
Definition getter_seven : string → pyval → list call → value := λ _ _ _, VInt 7.

(** [AudioAnalysis('TRACK')], as the constructor leaves it. *)
Definition track : AudioAnalysis.t :=
  foldl (λ self cachedVar, AudioAnalysis.setattr self cachedVar PNone)
    (AudioAnalysis.setattr {| AudioAnalysis.attrs := ∅ |} "id" (PVal (VStr "TRACK")))
    CACHED_VARIABLES.

(** The floats [1.0], [2.0], [0.5] and [2^-14], and the segments
    [{start: 1.0, duration: 0.5}] and [{start: 2.0, duration: 0.5}]. *)
Definition one : float := Float.of_int 1.
Definition two : float := Float.of_int 2.
Definition half : float := Float.dyadic 1 (-1).
Definition tiny : float := Float.dyadic 1 (-14).

Definition seg_1_0_5 : segment := {| start := one; duration := half |}.
Definition seg_2_0_5 : segment := {| start := two; duration := half |}.

Definition zero_f : float := Float.of_int 0.
Definition seg_0_1 : segment := {| start := zero_f; duration := one |}.
Definition seg_1_1 : segment := {| start := one; duration := one |}.

(** A segment of three seconds backwards: [{start: 0.0, duration: -3.0}]. *)
Definition seg_back : segment := {| start := zero_f; duration := Float.of_int (-3) |}.

(** [AudioData(numpy.array([0, 1, 2, 3]))] and two more mono buffers, as
    the constructor builds them. *)
Definition ramp : AudioData.t := buffer_of (Arr1 [0; 1; 2; 3]).
Definition pair : AudioData.t := buffer_of (Arr1 [5; 6]).
Definition single : AudioData.t := buffer_of (Arr1 [7]).

(** [AudioData(numpy.array([[1, 2]]))], one stereo frame. *)
Definition stereo_frame : AudioData.t := buffer_of (Arr2 2 [[1; 2]]).

(** [AudioData()], a buffer without an array. *)
Definition blank : AudioData.t :=
  {| AudioData.data := None; AudioData.endindex := 0;
     AudioData.samplerate := 44100; AudioData.numchannels := 2 |}.

(** [AudioData(shape=(4,))] after [append(pair)]: capacity four, two
    samples written. *)
Definition half_full : AudioData.t :=
  {| AudioData.data := Some (Arr1 [5; 6; 0; 0]); AudioData.endindex := 2;
     AudioData.samplerate := 44100; AudioData.numchannels := 2 |}.

(** Three and two seconds of silence at 44100 Hz, mono. *)
Definition three_seconds : AudioData.t :=
  buffer_at 44100 (Arr1 (replicate (Z.to_nat 132300) 0)).

Definition two_seconds : AudioData.t :=
  buffer_at 44100 (Arr1 (replicate (Z.to_nat 88200) 0)).

(** [AudioData(numpy.zeros(100, numpy.int16), samplerate=8000,
    numchannels=1)]: a mono buffer of 100 samples at 8000 Hz. *)
Definition tone : AudioData.t :=
  {| AudioData.data := Some (Arr1 (replicate 100 0)); AudioData.endindex := 100;
     AudioData.samplerate := 8000; AudioData.numchannels := 1 |}.

(** Modelled on the claim's words: the canonical little-endian RIFF/WAVE
    file of 16-bit PCM samples, with a fmt chunk of length 16, format tag 1,
    the byte rate [sr * 2 * noc], the block align [noc * 2], and a data
    chunk holding [samples]. *)
Definition canonical_wav (noc sr : Z) (samples : list ascii) : list ascii :=
  str "RIFF" ++ struct.little_endian 4 (36 + Z.of_nat (length samples))
  ++ str "WAVE"
  ++ str "fmt " ++ struct.little_endian 4 16
  ++ struct.little_endian 2 1 ++ struct.little_endian 2 noc
  ++ struct.little_endian 4 sr ++ struct.little_endian 4 (sr * 2 * noc)
  ++ struct.little_endian 2 (noc * 2) ++ struct.little_endian 2 16
  ++ str "data" ++ struct.little_endian 4 (Z.of_nat (length samples))
  ++ samples.

(** What [ffmpeg -i] prints for a mono file of 22050 Hz, and a stream line
    without commas. *)
Definition probe_mono : list ascii :=
  str "Input #0, wav, from 'x.wav':" ++ [newline]
  ++ str "  Duration: 00:00:30.0, bitrate: 352 kb/s" ++ [newline]
  ++ str "    Stream #0.0: Audio: pcm_s16le, 22050 Hz, mono, 352 kb/s" ++ [newline]
  ++ str "Must supply at least one output file".

Definition probe_no_commas : list ascii :=
  str "Stream #0.0: Audio: mp3 44100 Hz".

(** The name [tempfile.mkstemp] returns, a [wave.open] that finds the
    frames of the array [d] in every file, and a shell in which every
    command prints [probe_mono]. *)
Definition tmp_wav : list ascii := str "/tmp/tmpq3Xk1a.wav".

Definition wave_of (p : platform) (d : ndarray)
    (ran : list (list ascii)) (file : list ascii) : result (Z * list ascii) :=
  Ok (np.len d, np.tofile p d).

(** A [wave.open] that finds [nframes] frames, the bytes of [samples]. *)
Definition wave_frames (p : platform) (nframes : Z) (samples : list Z)
    (ran : list (list ascii)) (file : list ascii) : result (Z * list ascii) :=
  Ok (nframes, np.tofile p (Arr1 samples)).

Definition shell_mono (ran : list (list ascii)) (cmd : list ascii) : list ascii :=
  probe_mono.

(** Case analysis on the integer comparisons of the goal. *)
Ltac zbool :=
  repeat match goal with
    | |- context [?a <? ?b] => destruct (Z.ltb_spec a b)
    | |- context [?a <=? ?b] => destruct (Z.leb_spec a b)
    | |- context [?a =? ?b] => destruct (Z.eqb_spec a b)
    end.

(** * Properties *)

(** ** Results *)

Lemma bind_Ok {A B} (r : result A) (k : A → result B) b :
  bind r k = Ok b → ∃ a, r = Ok a ∧ k a = Ok b.
Proof. destruct r as [a|e]; simpl; [eauto | discriminate]. Qed.

(** ** AudioAnalysis *)

Section AnalysisCache.

Import AudioAnalysis.

Variable getter : string → pyval → list call → value.

Lemma init_track isfile upload :
  isfile "TRACK"%string = false →
  init isfile upload (PVal (VStr "TRACK")) [] = (Ok track, []).
Proof. intros Hf. unfold init. rewrite Hf. reflexivity. Qed.

Lemma id_not_cached : "id" ∉ CACHED_VARIABLES.
Proof. apply (bool_decide_unpack _). vm_compute. exact I. Qed.

Lemma CACHED_VARIABLES_NoDup : NoDup CACHED_VARIABLES.
Proof. apply (bool_decide_unpack _). vm_compute. exact I. Qed.

(** The constructor establishes [constructed], and [setattr] keeps it. *)
Lemma constructed_setattr self name v :
  constructed self → constructed (setattr self name v).
Proof.
  intros [Hid Hall]. split; simpl.
  - destruct (decide (name = "id"%string)) as [-> | Hne].
    + rewrite lookup_insert_eq. eauto.
    + by rewrite lookup_insert_ne.
  - intros n Hn. destruct (decide (name = n)) as [-> | Hne].
    + rewrite lookup_insert_eq. eauto.
    + rewrite lookup_insert_ne by done. by apply Hall.
Qed.

Lemma constructed_init isfile upload audio log self log' :
  init isfile upload audio log = (Ok self, log') → constructed self.
Proof.
  unfold init. destruct audio as [|[| |s|]]; try discriminate.
  destruct (isfile s || contains_dot s); intros [= <- _];
    (split; [by eexists |]); intros name Hname;
    repeat (apply elem_of_cons in Hname as [-> | Hname]; [by eexists |]);
    by apply elem_of_nil in Hname.
Qed.

(** A read of an unset cached attribute fetches it and stores it. *)
Lemma getattribute_unset self name log id :
  name ∈ CACHED_VARIABLES →
  attrs self !! name = Some PNone →
  attrs self !! "id" = Some id →
  getattribute getter self name log =
    (Ok (PVal (getter name id log)),
     setattr self name (PVal (getter name id log)),
     log ++ [Fetch name id]).
Proof.
  intros Hin Hname Hid. unfold getattribute, object_getattribute.
  rewrite bool_decide_eq_true_2 by exact Hin.
  rewrite Hname, Hid. simpl. by rewrite lookup_insert_eq.
Qed.

(** A read of a set cached attribute calls nothing. *)
Lemma getattribute_set self name log v :
  attrs self !! name = Some (PVal v) →
  getattribute getter self name log = (Ok (PVal v), self, log).
Proof.
  intros Hname. unfold getattribute, object_getattribute. rewrite Hname.
  by case_bool_decide.
Qed.

Lemma refresh_loop_spec id vars : ∀ self log,
  NoDup vars → Forall (λ n, n ∈ CACHED_VARIABLES) vars → "id" ∉ vars →
  attrs self !! "id" = Some id →
  ∃ self',
    refresh_loop getter vars self log
      = (Ok tt, self', log ++ map (λ n, Fetch n id) vars)
    ∧ attrs self' !! "id" = Some id
    ∧ (∀ k name, vars !! k = Some name →
         attrs self' !! name
           = Some (PVal (getter name id
                           (log ++ map (λ n, Fetch n id) (take k vars)))))
    ∧ (∀ name, name ∉ vars → attrs self' !! name = attrs self !! name).
Proof.
  induction vars as [|v vars IH]; intros self log Hnd Hall Hid Hself.
  - exists self. simpl. rewrite app_nil_r. repeat split; try done.
  - apply NoDup_cons in Hnd as [Hv Hnd]. apply Forall_cons in Hall as [Hc Hall].
    apply not_elem_of_cons in Hid as [Hne Hid].
    simpl.
    rewrite (getattribute_unset _ v log id Hc).
    2: { simpl. apply lookup_insert_eq. }
    2: { simpl. rewrite lookup_insert_ne by done. exact Hself. }
    set (self2 := setattr (setattr self v PNone) v (PVal (getter v id log))).
    destruct (IH self2 (log ++ [Fetch v id]) Hnd Hall Hid)
      as (self' & Hrun & Hid' & Hget & Hother).
    { subst self2. simpl. by rewrite !lookup_insert_ne. }
    exists self'. rewrite Hrun, <- app_assoc. simpl. repeat split; try done.
    + intros [|k] name Hk; simpl in Hk.
      * injection Hk as <-. rewrite Hother by done. subst self2. simpl.
        rewrite lookup_insert_eq, app_nil_r. done.
      * rewrite (Hget k name Hk), <- app_assoc. done.
    + intros name Hname. apply not_elem_of_cons in Hname as [Hn1 Hn2].
      rewrite Hother by done. subst self2. simpl. by rewrite !lookup_insert_ne.
Qed.

End AnalysisCache.

(** C6. Constructing an [AudioAnalysis] from an argument that is not a
    string raises [TypeError], the module's "invalid argument" error: no
    object, hence no track identifier, results, and the log of calls to the
    analyze API is as it was, so no upload was attempted. *)
Theorem C6_init_rejects_non_string isfile upload (audio : pyval) (log : list call) :
  (∀ s, audio ≠ PVal (VStr s)) →
  AudioAnalysis.init isfile upload audio log = (Raise TypeError, log).
Proof.
  intros Hns. destruct audio as [|[| |s|]]; try reflexivity.
  by destruct (Hns s).
Qed.

Lemma C6_init_rejects_non_string_witness :
  (∀ s, PVal (VInt 5) ≠ PVal (VStr s))
  ∧ AudioAnalysis.init no_file upload_TR1 (PVal (VInt 5)) [] = (Raise TypeError, []).
Proof.
  split; [intros s; discriminate |].
  apply (C6_init_rejects_non_string no_file upload_TR1 (PVal (VInt 5)) []).
  intros s; discriminate.
Defined.

(** C1. For every cached field of every constructed instance, two reads in
    a row with no refresh in between call the fetch collaborator at most
    once.  When the field is unset, the first read calls [get_<name>(id)]
    once, stores the result and returns it; when it is set, the first read
    returns the stored value and calls nothing.  In both cases the second
    read returns the same value and leaves the instance and the log of
    calls as the first read left them. *)
Theorem C1_cached_field_fetched_once getter self name log :
  AudioAnalysis.constructed self →
  name ∈ CACHED_VARIABLES →
  ∃ id v self1 log1,
    AudioAnalysis.attrs self !! "id" = Some id
    ∧ AudioAnalysis.getattribute getter self name log = (Ok (PVal v), self1, log1)
    ∧ AudioAnalysis.getattribute getter self1 name log1 = (Ok (PVal v), self1, log1)
    ∧ AudioAnalysis.attrs self1 !! name = Some (PVal v)
    ∧ match AudioAnalysis.attrs self !! name with
      | Some PNone =>
          v = getter name id log
          ∧ self1 = AudioAnalysis.setattr self name (PVal v)
          ∧ log1 = log ++ [Fetch name id]
      | _ => self1 = self ∧ log1 = log
      end.
Proof.
  intros [[id Hid] Hall] Hin. destruct (Hall name Hin) as [[|v] Hname].
  - exists id, (getter name id log),
      (AudioAnalysis.setattr self name (PVal (getter name id log))),
      (log ++ [Fetch name id]).
    rewrite Hname. split; [done |].
    split; [by apply getattribute_unset |].
    split; [apply getattribute_set; simpl; apply lookup_insert_eq |].
    split; [simpl; apply lookup_insert_eq | done].
  - exists id, v, self, log. rewrite Hname.
    split; [done |]. split; [by apply getattribute_set |].
    split; [by apply getattribute_set |]. done.
Qed.

Lemma C1_cached_field_fetched_once_witness :
  ∃ id v self1 log1,
    AudioAnalysis.attrs track !! "id" = Some id
    ∧ AudioAnalysis.getattribute getter_seven track "bars" []
      = (Ok (PVal v), self1, log1)
    ∧ AudioAnalysis.getattribute getter_seven self1 "bars" log1
      = (Ok (PVal v), self1, log1)
    ∧ AudioAnalysis.attrs self1 !! "bars" = Some (PVal v)
    ∧ match AudioAnalysis.attrs track !! "bars" with
      | Some PNone =>
          v = getter_seven "bars" id []
          ∧ self1 = AudioAnalysis.setattr track "bars" (PVal v)
          ∧ log1 = [] ++ [Fetch "bars" id]
      | _ => self1 = track ∧ log1 = []
      end.
Proof.
  apply (C1_cached_field_fetched_once getter_seven track "bars" []).
  - apply (constructed_init no_file upload_TR1 (PVal (VStr "TRACK")) [] track []).
    reflexivity.
  - apply (bool_decide_unpack _). vm_compute. exact I.
Defined.

(** C7. [refreshCachedVariables], whatever the cached fields held before,
    sets each cached field to unset and fetches it again: fourteen calls of
    the fetch collaborator, one per cached field in the order of
    [CACHED_VARIABLES], after which every cached field holds the value its
    fetch returned. *)
Theorem C7_refresh_fetches_every_field getter self log :
  AudioAnalysis.constructed self →
  ∃ id self',
    AudioAnalysis.attrs self !! "id" = Some id
    ∧ AudioAnalysis.refreshCachedVariables getter self log
      = (Ok tt, self', log ++ map (λ n, Fetch n id) CACHED_VARIABLES)
    ∧ length (map (λ n, Fetch n id) CACHED_VARIABLES) = 14%nat
    ∧ AudioAnalysis.constructed self'
    ∧ (∀ k name, CACHED_VARIABLES !! k = Some name →
         AudioAnalysis.attrs self' !! name
           = Some (PVal (getter name id
                           (log ++ map (λ n, Fetch n id) (take k CACHED_VARIABLES)))))
    ∧ (∀ name, name ∈ CACHED_VARIABLES →
         ∃ v, AudioAnalysis.attrs self' !! name = Some (PVal v)).
Proof.
  intros [[id Hid] Hall].
  destruct (refresh_loop_spec getter id CACHED_VARIABLES self log)
    as (self' & Hrun & Hid' & Hget & _).
  - apply CACHED_VARIABLES_NoDup.
  - by apply Forall_forall.
  - apply id_not_cached.
  - exact Hid.
  - assert (Hpop : ∀ name, name ∈ CACHED_VARIABLES →
               ∃ v, AudioAnalysis.attrs self' !! name = Some (PVal v)).
    { intros name Hin. apply list_elem_of_lookup in Hin as [k Hk].
      eexists. apply (Hget k name Hk). }
    exists id, self'. split; [exact Hid |]. split; [exact Hrun |].
    split; [reflexivity |]. split; [| split; [exact Hget | exact Hpop]].
    split; [by eexists |]. intros name Hin.
    destruct (Hpop name Hin) as [v Hv]. by eexists.
Qed.

Lemma C7_refresh_fetches_every_field_witness :
  ∃ id self',
    AudioAnalysis.attrs track !! "id" = Some id
    ∧ AudioAnalysis.refreshCachedVariables getter_seven track []
      = (Ok tt, self', [] ++ map (λ n, Fetch n id) CACHED_VARIABLES)
    ∧ length (map (λ n, Fetch n id) CACHED_VARIABLES) = 14%nat
    ∧ AudioAnalysis.constructed self'
    ∧ (∀ k name, CACHED_VARIABLES !! k = Some name →
         AudioAnalysis.attrs self' !! name
           = Some (PVal (getter_seven name id
                           ([] ++ map (λ n, Fetch n id) (take k CACHED_VARIABLES)))))
    ∧ (∀ name, name ∈ CACHED_VARIABLES →
         ∃ v, AudioAnalysis.attrs self' !! name = Some (PVal v)).
Proof.
  apply (C7_refresh_fetches_every_field getter_seven track []).
  apply (constructed_init no_file upload_TR1 (PVal (VStr "TRACK")) [] track []).
  reflexivity.
Defined.

(** ** numpy arrays *)

Lemma wrap16_int16 z : is_int16 z → np.wrap16 z = z.
Proof.
  unfold is_int16, np.wrap16. intros Hz.
  rewrite Z.mod_small by lia. lia.
Qed.

Lemma wrap16_is_int16 z : is_int16 (np.wrap16 z).
Proof.
  unfold is_int16, np.wrap16.
  pose proof (Z.mod_pos_bound (z + 32768) 65536). lia.
Qed.

Lemma map_wrap16_int16 xs : Forall is_int16 xs → map np.wrap16 xs = xs.
Proof.
  induction 1 as [|x xs Hx _ IH]; simpl; [done |].
  by rewrite wrap16_int16, IH.
Qed.

Lemma astype16_int16 a : int16_array a → astype16 a = a.
Proof.
  destruct a as [xs | c rows]; simpl; intros Ha.
  - by rewrite map_wrap16_int16.
  - f_equal. induction Ha as [|r rows Hr _ IH]; simpl; [done |].
    by rewrite map_wrap16_int16, IH.
Qed.

Lemma astype16_is_int16 a : int16_array (astype16 a).
Proof.
  destruct a as [xs | c rows]; simpl.
  - induction xs; simpl; constructor; [apply wrap16_is_int16 | done].
  - induction rows as [|r rows IH]; simpl; constructor; [| done].
    induction r; simpl; constructor; [apply wrap16_is_int16 | done].
Qed.

Lemma len_astype16 a : np.len (astype16 a) = np.len a.
Proof. destruct a; simpl; by rewrite length_map. Qed.

Lemma slice_indices_unit lo hi n :
  0 ≤ lo → 0 ≤ hi → 0 ≤ n →
  np.slice_indices (Some lo) (Some hi) None n
    = Ok (Z.min lo n, 1, Z.max 0 (Z.min hi n - Z.min lo n)).
Proof.
  intros Hlo Hhi Hn. unfold np.slice_indices. simpl.
  rewrite !Z.div_1_r.
  destruct (Z.ltb_spec lo 0); [lia |]. destruct (Z.ltb_spec hi 0); [lia |].
  destruct (Z.leb_spec n lo), (Z.leb_spec n hi); zbool; repeat f_equal; lia.
Qed.

Lemma slice_indices_all n :
  0 ≤ n → np.slice_indices (Some 0) None None n = Ok (0, 1, n).
Proof.
  intros Hn. unfold np.slice_indices. simpl.
  rewrite !Z.div_1_r. zbool; repeat f_equal; lia.
Qed.

Section Lists.

Context {A : Type}.
Implicit Types l src : list A.

(** Looking up [k] consecutive positions gives a segment of the list. *)
Lemma omap_lookup_seq l (s : Z) : ∀ (k a : nat),
  0 ≤ s → (Z.to_nat s + a + k ≤ length l)%nat →
  omap (λ i : nat, l !! Z.to_nat (s + Z.of_nat i * 1)) (seq a k)
    = take k (drop (Z.to_nat s + a) l).
Proof.
  induction k as [|k IH]; intros a Hs Hlen; simpl; [done |].
  replace (Z.to_nat (s + Z.of_nat a * 1)) with (Z.to_nat s + a)%nat by lia.
  destruct (lookup_lt_is_Some_2 l (Z.to_nat s + a)) as [x Hx]; [lia |].
  rewrite Hx, (drop_S _ _ _ Hx). simpl. f_equal.
  rewrite IH by lia. f_equal. f_equal. lia.
Qed.

Lemma select_unit l lo hi :
  0 ≤ lo → 0 ≤ hi →
  np.select l (Some lo) (Some hi) None
    = Ok (take (Z.to_nat (hi - lo)) (drop (Z.to_nat lo) l)).
Proof.
  intros Hlo Hhi. unfold np.select.
  rewrite slice_indices_unit by lia. simpl. f_equal.
  rewrite omap_lookup_seq by lia. rewrite Nat.add_0_r.
  destruct (Z.le_gt_cases (Z.of_nat (length l)) lo) as [Hge | Hlt].
  - rewrite !drop_ge by lia. by rewrite !take_nil.
  - rewrite (Z.min_l lo) by lia.
    destruct (Z.le_gt_cases hi (Z.of_nat (length l))) as [Hh | Hh].
    + rewrite (Z.min_l hi) by lia. f_equal. lia.
    + rewrite (Z.min_r hi) by lia.
      rewrite !take_ge; [done | |]; rewrite length_drop; lia.
Qed.

Lemma select_all l : np.select l (Some 0) None None = Ok l.
Proof.
  unfold np.select. rewrite slice_indices_all by lia. simpl. f_equal.
  rewrite omap_lookup_seq by lia. simpl.
  rewrite Nat2Z.id. by rewrite firstn_all.
Qed.

Lemma broadcast_same (k : nat) src : length src = k → np.broadcast k src = Ok src.
Proof. intros Hk. unfold np.broadcast. by rewrite decide_True. Qed.

Lemma broadcast_mismatch (k : nat) src :
  length src ≠ k → length src ≠ 1%nat → np.broadcast k src = Raise ValueError.
Proof.
  intros Hk H1. unfold np.broadcast. rewrite decide_False by done.
  by destruct src as [|x [|y src]].
Qed.

End Lists.

Lemma len_nonneg a : 0 ≤ np.len a.
Proof. destruct a; simpl; lia. Qed.

Lemma getslice_between d lo hi :
  0 ≤ lo → 0 ≤ hi →
  np.getslice d (Some lo) (Some hi) None
    = Ok (between (Z.to_nat lo) (Z.to_nat hi) d).
Proof.
  intros Hlo Hhi.
  destruct d as [xs | c rows]; unfold np.getslice, between;
    rewrite select_unit by lia; simpl; do 3 f_equal; lia.
Qed.

Lemma getslice_all d : np.getslice d (Some 0) None None = Ok d.
Proof. destruct d as [xs | c rows]; unfold np.getslice; by rewrite select_all. Qed.

(** An assignment to a slice that lies within the array. *)
Lemma setslice_fits dst src e :
  same_row_shape dst src → 0 ≤ e → e + np.len src ≤ np.len dst →
  np.setslice dst e (e + np.len src) src
    = Ok (overwrite dst (Z.to_nat e) (astype16 src)).
Proof.
  intros Hshape He Hfit. unfold np.setslice.
  pose proof (len_nonneg dst). pose proof (len_nonneg src).
  rewrite slice_indices_unit by lia.
  assert (Hlo : Z.min e (np.len dst) = e) by lia.
  assert (Hk : Z.max 0 (Z.min (e + np.len src) (np.len dst) - Z.min e (np.len dst))
               = np.len src) by lia.
  rewrite Hk, Hlo. cbn [bind fst snd].
  destruct dst as [xs | c rows], src as [ys | c' rows']; simpl in *; try done.
  - rewrite broadcast_same by lia. simpl.
    by rewrite length_map, Nat2Z.id.
  - subst c'. rewrite decide_True by done.
    rewrite broadcast_same by lia. simpl.
    by rewrite length_map, Nat2Z.id.
Qed.

(** An assignment to a slice that runs past the end of the array, of a
    source that is not a single frame. *)
Lemma setslice_overflow dst src e :
  same_row_shape dst src → 0 ≤ e ≤ np.len dst →
  np.len dst < e + np.len src → np.len src ≠ 1 →
  np.setslice dst e (e + np.len src) src = Raise ValueError.
Proof.
  intros Hshape He Hover Hone. unfold np.setslice.
  pose proof (len_nonneg dst). pose proof (len_nonneg src).
  rewrite slice_indices_unit by lia.
  assert (Hk : Z.max 0 (Z.min (e + np.len src) (np.len dst) - Z.min e (np.len dst))
               = np.len dst - e) by lia.
  rewrite Hk. cbn [bind fst snd].
  destruct dst as [xs | c rows], src as [ys | c' rows']; simpl in *; try done.
  - rewrite broadcast_mismatch by lia. done.
  - subst c'. rewrite decide_True by done.
    rewrite broadcast_mismatch by lia. done.
Qed.

(** ** AudioData *)

Lemma zeros_shape_of a :
  np.zeros (np.shape_of a)
    = Ok (match a with
          | Arr1 xs => Arr1 (replicate (length xs) 0)
          | Arr2 c rows => Arr2 c (replicate (length rows) (replicate c 0))
          end).
Proof.
  destruct a as [xs | c rows]; simpl.
  - destruct (Z.ltb_spec (Z.of_nat (length xs)) 0); [lia |]. by rewrite Nat2Z.id.
  - destruct (Z.ltb_spec (Z.of_nat (length rows)) 0); [lia |].
    destruct (Z.ltb_spec (Z.of_nat c) 0); [lia |]. simpl. by rewrite !Nat2Z.id.
Qed.

(** [AudioData(a)]: the buffer holds [a], cast to [int16], and is full. *)
Lemma init_array a sr nc :
  AudioData.init (Some a) None sr nc
    = Ok {| AudioData.data := Some (astype16 a);
            AudioData.endindex := np.len a;
            AudioData.samplerate := sr;
            AudioData.numchannels := nc |}.
Proof.
  unfold AudioData.init. rewrite zeros_shape_of. cbn [bind].
  pose proof (setslice_fits
    (match a with
     | Arr1 xs => Arr1 (replicate (length xs) 0)
     | Arr2 c rows => Arr2 c (replicate (length rows) (replicate c 0))
     end) a 0) as Hset.
  rewrite Z.add_0_l in Hset. rewrite Hset.
  - cbn [bind]. do 3 f_equal.
    destruct a as [xs | c rows]; simpl; rewrite length_map;
      rewrite drop_ge by (rewrite length_replicate; lia);
      by rewrite app_nil_r.
  - by destruct a.
  - lia.
  - destruct a; simpl; rewrite length_replicate; lia.
Qed.

(** [append] within the capacity: the frames of [as2] are written from the
    write position on, and the write position moves past them. *)
Lemma append_fits self as2 d d2 :
  AudioData.data self = Some d → AudioData.data as2 = Some d2 →
  same_row_shape d d2 →
  0 ≤ AudioData.endindex self →
  AudioData.endindex self + np.len d2 ≤ np.len d →
  AudioData.append self as2
    = Ok {| AudioData.data :=
              Some (overwrite d (Z.to_nat (AudioData.endindex self)) (astype16 d2));
            AudioData.endindex := AudioData.endindex self + np.len d2;
            AudioData.samplerate := AudioData.samplerate self;
            AudioData.numchannels := AudioData.numchannels self |}.
Proof.
  intros Hd Hd2 Hshape He Hfit. unfold AudioData.append, AudioData.len.
  rewrite Hd2, Hd, getslice_all. simpl.
  by rewrite setslice_fits.
Qed.

(** [append] past the capacity, of a buffer that is not a single frame. *)
Lemma append_overflow self as2 d d2 :
  AudioData.data self = Some d → AudioData.data as2 = Some d2 →
  same_row_shape d d2 →
  0 ≤ AudioData.endindex self ≤ np.len d →
  np.len d < AudioData.endindex self + np.len d2 →
  np.len d2 ≠ 1 →
  AudioData.append self as2 = Raise ValueError.
Proof.
  intros Hd Hd2 Hshape He Hover Hone. unfold AudioData.append, AudioData.len.
  rewrite Hd2, Hd, getslice_all. simpl.
  by rewrite setslice_overflow.
Qed.

Lemma len_count a : np.len a = Z.of_nat (count a).
Proof. by destruct a. Qed.

Lemma count_between lo hi d :
  (lo ≤ hi)%nat → (hi ≤ count d)%nat → count (between lo hi d) = (hi - lo)%nat.
Proof.
  intros Hlo Hhi.
  destruct d as [xs | c rows]; simpl in *; rewrite length_take, length_drop; lia.
Qed.

Lemma int16_between lo hi d : int16_array d → int16_array (between lo hi d).
Proof.
  destruct d as [xs | c rows]; simpl; intros Hd;
    by apply Forall_take, Forall_drop.
Qed.

Lemma int16_followed_by a b :
  int16_array a → int16_array b → int16_array (followed_by a b).
Proof.
  destruct a, b; simpl; intros Ha Hb; try done; by apply Forall_app.
Qed.

Lemma len_followed_by a b :
  same_row_shape a b → np.len (followed_by a b) = np.len a + np.len b.
Proof. destruct a, b; simpl; intros Hs; try done; rewrite length_app; lia. Qed.

Lemma concatenate_followed_by a b :
  same_row_shape a b → np.concatenate a b = Ok (followed_by a b).
Proof.
  destruct a, b; simpl; intros Hs; try done. by rewrite decide_True.
Qed.

Lemma concatenate_mismatch a b :
  ¬ same_row_shape a b → np.concatenate a b = Raise ValueError.
Proof.
  destruct a, b; simpl; intros Hs; try done. by rewrite decide_False.
Qed.

(** A slice without a step is never refused by numpy. *)
Lemma getslice_no_step d lo hi : ∃ a, np.getslice d lo hi None = Ok a.
Proof. destruct d; simpl; eauto. Qed.

(** A slice with bounds in seconds: the bounds are scaled by the sample
    rate, and the selected frames are copied into a buffer of that rate. *)
Lemma getslice_seconds self d f g lo hi :
  AudioData.data self = Some d →
  AudioData.seconds self f = Ok lo → AudioData.seconds self g = Ok hi →
  0 ≤ lo → 0 ≤ hi →
  AudioData.getslice self (BFloat f) (BFloat g) None
    = Ok (buffer_at (AudioData.samplerate self)
            (astype16 (between (Z.to_nat lo) (Z.to_nat hi) d))).
Proof.
  intros Hd Hf Hg Hlo Hhi. unfold AudioData.getslice.
  rewrite Hf, Hg, Hd. cbn [bind fst snd].
  rewrite getslice_between by done. cbn [bind].
  rewrite init_array. unfold buffer_at. by rewrite len_astype16.
Qed.

Lemma getitem_segment self d s lo hi :
  AudioData.data self = Some d →
  AudioData.seconds self (start s) = Ok lo →
  AudioData.seconds self (Float.add (start s) (duration s)) = Ok hi →
  0 ≤ lo → 0 ≤ hi →
  AudioData.getitem self (ISeg s)
    = Ok (AudioData.Buffer
            (buffer_at (AudioData.samplerate self)
               (astype16 (between (Z.to_nat lo) (Z.to_nat hi) d)))).
Proof.
  intros Hd Hf Hg Hlo Hhi. unfold AudioData.getitem. cbn [bind].
  by rewrite (getslice_seconds self d _ _ lo hi).
Qed.

Lemma getitem_segment_slice self d a b step lo hi :
  AudioData.data self = Some d →
  AudioData.seconds self (start a) = Ok lo →
  AudioData.seconds self (Float.add (start b) (duration b)) = Ok hi →
  0 ≤ lo → 0 ≤ hi →
  AudioData.getitem self (ISlice (BSeg a) (BSeg b) step)
    = Ok (AudioData.Buffer
            (buffer_at (AudioData.samplerate self)
               (astype16 (between (Z.to_nat lo) (Z.to_nat hi) d)))).
Proof.
  intros Hd Hf Hg Hlo Hhi. unfold AudioData.getitem. cbn [bind].
  by rewrite (getslice_seconds self d _ _ lo hi).
Qed.

Lemma init_ramp : AudioData.init (Some (Arr1 [0; 1; 2; 3])) None 44100 2 = Ok ramp.
Proof. reflexivity. Qed.

Lemma init_pair : AudioData.init (Some (Arr1 [5; 6])) None 44100 2 = Ok pair.
Proof. reflexivity. Qed.

Lemma init_single : AudioData.init (Some (Arr1 [7])) None 44100 2 = Ok single.
Proof. reflexivity. Qed.

Lemma init_stereo_frame :
  AudioData.init (Some (Arr2 2 [[1; 2]])) None 44100 2 = Ok stereo_frame.
Proof. reflexivity. Qed.

Lemma init_blank : AudioData.init None None 44100 2 = Ok blank.
Proof. reflexivity. Qed.

Lemma init_half_full :
  (b <- AudioData.init None (Some (Shape1 4)) 44100 2 ;; AudioData.append b pair)
    = Ok half_full.
Proof. reflexivity. Qed.

(** [int] of a finite float: the magnitude [m * 2^e] rounded down, with
    the sign of the float, that is, the float truncated toward zero. *)
Lemma to_int_finite (s : bool) (m : positive) (e : Z) :
  Float.to_int (S754_finite s m e)
    = Ok ((if s then -1 else 1)
          * (if 0 <=? e then Z.pos m * 2 ^ e else Z.pos m / 2 ^ (- e))).
Proof.
  unfold Float.to_int. f_equal.
  destruct (Z.leb_spec 0 e).
  - rewrite Z.shiftl_mul_pow2 by lia. destruct s; lia.
  - rewrite Z.shiftl_div_pow2 by lia. destruct s; lia.
Qed.

(** C2 (amended). A float index [v] is taken as seconds and converted to
    the sample index [int(v * samplerate)], the product truncated toward
    zero; the buffer is then indexed with that integer.  At 44100 Hz the
    float [1.0] selects what the integer 44100 selects. *)
Theorem C2_float_index_truncates self v :
  AudioData.getitem self (IFloat v)
    = (i <- Float.to_int (Float.mul v (Float.of_int (AudioData.samplerate self))) ;;
       AudioData.getitem self (IInt i))
  ∧ (∀ s m e,
       Float.to_int (S754_finite s m e)
         = Ok ((if s then -1 else 1)
               * (if 0 <=? e then Z.pos m * 2 ^ e else Z.pos m / 2 ^ (- e))))
  ∧ ∀ d e nc,
      let b := {| AudioData.data := d; AudioData.endindex := e;
                  AudioData.samplerate := 44100; AudioData.numchannels := nc |} in
      AudioData.getitem b (IFloat one) = AudioData.getitem b (IInt 44100).
Proof.
  split; [| split].
  - unfold AudioData.getitem, AudioData.seconds, Float.scale.
    by destruct (Float.to_int _).
  - apply to_int_finite.
  - intros d e nc b. reflexivity.
Qed.

(** C2 as stated fails where the product has a fractional part of a half
    or more: at 44100 Hz, [2^-14] seconds are 2.69 samples, which [int]
    truncates to 2 and rounding would take to 3. *)
Lemma C2_counterexample :
  Float.scale tiny (AudioData.samplerate ramp) = Ok 2
  ∧ round_to_int (Float.mul tiny (Float.of_int (AudioData.samplerate ramp))) = Ok 3
  ∧ AudioData.getitem ramp (IFloat tiny) = Ok (AudioData.Sample 2)
  ∧ AudioData.getitem ramp (IInt 3) = Ok (AudioData.Sample 3)
  ∧ AudioData.getitem ramp (IFloat tiny)
    ≠ (i <- round_to_int (Float.mul tiny (Float.of_int (AudioData.samplerate ramp))) ;;
       AudioData.getitem ramp (IInt i)).
Proof.
  repeat split; try (vm_compute; reflexivity).
  intros Heq. vm_compute in Heq. discriminate Heq.
Qed.

(** C3. At 44100 Hz, a slice from the segment [{start: 1.0, duration: 0.5}]
    to the segment [{start: 2.0, duration: 0.5}] is the slice from the start
    of the first, [1.0] seconds, to the end, start plus duration, of the
    second: multiplied by the sample rate, the bounds are the samples 44100
    and 110250.  On a buffer with an array the frames at the positions
    [44100 ≤ i < 110250] are returned, in a new buffer of the same rate; a
    buffer without an array cannot be indexed. *)
Theorem C3_segment_slice_range self step :
  AudioData.samplerate self = 44100 →
  AudioData.getitem self (ISlice (BSeg seg_1_0_5) (BSeg seg_2_0_5) step)
    = (b <- AudioData.getslice self
              (BFloat (start seg_1_0_5))
              (BFloat (Float.add (start seg_2_0_5) (duration seg_2_0_5))) None ;;
       Ok (AudioData.Buffer b))
  ∧ AudioData.seconds self (start seg_1_0_5) = Ok 44100
  ∧ AudioData.seconds self (Float.add (start seg_2_0_5) (duration seg_2_0_5))
    = Ok 110250
  ∧ match AudioData.data self with
    | Some d =>
        AudioData.getitem self (ISlice (BSeg seg_1_0_5) (BSeg seg_2_0_5) step)
          = Ok (AudioData.Buffer
                  (buffer_at 44100
                     (astype16 (between (Z.to_nat 44100) (Z.to_nat 110250) d))))
        ∧ (int16_array d →
           astype16 (between (Z.to_nat 44100) (Z.to_nat 110250) d)
             = between (Z.to_nat 44100) (Z.to_nat 110250) d)
        ∧ (110250 ≤ np.len d →
           np.len (between (Z.to_nat 44100) (Z.to_nat 110250) d) = 110250 - 44100)
    | None =>
        AudioData.getitem self (ISlice (BSeg seg_1_0_5) (BSeg seg_2_0_5) step)
          = Raise TypeError
    end.
Proof.
  intros Hsr.
  assert (H1 : AudioData.seconds self (start seg_1_0_5) = Ok 44100).
  { unfold AudioData.seconds. rewrite Hsr. vm_compute. reflexivity. }
  assert (H2 : AudioData.seconds self
                 (Float.add (start seg_2_0_5) (duration seg_2_0_5)) = Ok 110250).
  { unfold AudioData.seconds. rewrite Hsr. vm_compute. reflexivity. }
  split; [reflexivity |]. split; [exact H1 |]. split; [exact H2 |].
  destruct (AudioData.data self) as [d |] eqn:Hd.
  - split.
    + rewrite (getitem_segment_slice self d _ _ step 44100 110250 Hd H1 H2) by lia.
      by rewrite Hsr.
    + split; [intros Hd16; apply astype16_int16; by apply int16_between |].
      rewrite !len_count. intros Hlen. rewrite count_between; lia.
  - unfold AudioData.getitem, AudioData.getslice. cbn [bind].
    by rewrite H1, H2, Hd.
Qed.

Lemma C3_segment_slice_range_witness :
  AudioData.getitem three_seconds (ISlice (BSeg seg_1_0_5) (BSeg seg_2_0_5) None)
    = Ok (AudioData.Buffer
            (buffer_at 44100
               (astype16 (between (Z.to_nat 44100) (Z.to_nat 110250)
                            (Arr1 (replicate (Z.to_nat 132300) 0))))))
  ∧ np.len (between (Z.to_nat 44100) (Z.to_nat 110250)
              (Arr1 (replicate (Z.to_nat 132300) 0))) = 110250 - 44100.
Proof.
  pose proof (C3_segment_slice_range three_seconds None
                (eq_refl : AudioData.samplerate three_seconds = 44100))
    as (_ & _ & _ & Hget & _ & Hlen).
  split; [exact Hget |]. apply Hlen.
  unfold np.len. rewrite length_replicate. lia.
Defined.

(** C4 (amended). For a buffer with an array, whose write position lies
    within its capacity, and another buffer with an array of the same row
    shape: when the write position plus the length of the other buffer
    exceeds the capacity and the other buffer is not a single frame,
    [append] raises numpy's [ValueError], the module's "capacity exceeded",
    and returns no updated buffer, so the write position stays; when it does
    not exceed the capacity, [append] copies the frames of the other buffer
    from the write position on and advances the write position by their
    number. *)
Theorem C4_append_capacity self as2 d d2 :
  AudioData.data self = Some d → AudioData.data as2 = Some d2 →
  same_row_shape d d2 →
  0 ≤ AudioData.endindex self ≤ AudioData.len self →
  (AudioData.len self < AudioData.endindex self + AudioData.len as2 →
   AudioData.len as2 ≠ 1 →
   AudioData.append self as2 = Raise ValueError)
  ∧ (AudioData.endindex self + AudioData.len as2 ≤ AudioData.len self →
     AudioData.append self as2
       = Ok {| AudioData.data :=
                 Some (overwrite d (Z.to_nat (AudioData.endindex self)) (astype16 d2));
               AudioData.endindex := AudioData.endindex self + AudioData.len as2;
               AudioData.samplerate := AudioData.samplerate self;
               AudioData.numchannels := AudioData.numchannels self |}).
Proof.
  intros Hd Hd2 Hshape. unfold AudioData.len. rewrite Hd, Hd2. intros He. split.
  - intros Hover Hone. by apply (append_overflow self as2 d d2).
  - intros Hfit. apply (append_fits self as2 d d2); (done || lia).
Qed.

Lemma C4_append_capacity_witness :
  AudioData.append half_full ramp = Raise ValueError
  ∧ AudioData.append half_full pair
    = Ok {| AudioData.data := Some (Arr1 [5; 6; 5; 6]);
            AudioData.endindex := 4;
            AudioData.samplerate := 44100;
            AudioData.numchannels := 2 |}.
Proof.
  split.
  - apply (C4_append_capacity half_full ramp (Arr1 [5; 6; 0; 0]) (Arr1 [0; 1; 2; 3]));
      try reflexivity; vm_compute; try (intuition discriminate); done.
  - apply (C4_append_capacity half_full pair (Arr1 [5; 6; 0; 0]) (Arr1 [5; 6]));
      try reflexivity; vm_compute; try (intuition discriminate); done.
Defined.

(** C4 as stated fails for a single frame appended to a full buffer: the
    slice assigned to is empty, numpy broadcasts the frame to it, nothing is
    written, and the write position moves past the capacity. *)
Lemma C4_counterexample :
  AudioData.len pair = 2 ∧ AudioData.endindex pair = 2 ∧ AudioData.len single = 1
  ∧ AudioData.len pair < AudioData.endindex pair + AudioData.len single
  ∧ AudioData.append pair single
    = Ok {| AudioData.data := Some (Arr1 [5; 6]);
            AudioData.endindex := 3;
            AudioData.samplerate := 44100;
            AudioData.numchannels := 2 |}
  ∧ (∀ e, AudioData.append pair single ≠ Raise e).
Proof. repeat split; try lia. intros e. discriminate. Qed.

(** C8 (amended). For buffers whose arrays are [int16] arrays:
    if only the second buffer has an array, [__add__] returns a buffer
    holding a copy of it; if only the first has one, a copy of that one; if
    both have arrays of the same row shape, a buffer whose array is the
    first array followed by the second, whole, whatever the write positions
    are, of length [len(a) + len(b)].  If the row shapes differ [__add__]
    raises numpy's [ValueError]. *)
Theorem C8_add_concatenates self as2 :
  (∀ d2, AudioData.data self = None → AudioData.data as2 = Some d2 →
     int16_array d2 → AudioData.add self as2 = Ok (buffer_of d2))
  ∧ (∀ d1, AudioData.data self = Some d1 → AudioData.data as2 = None →
       int16_array d1 → AudioData.add self as2 = Ok (buffer_of d1))
  ∧ (∀ d1 d2, AudioData.data self = Some d1 → AudioData.data as2 = Some d2 →
       int16_array d1 → int16_array d2 → same_row_shape d1 d2 →
       AudioData.add self as2 = Ok (buffer_of (followed_by d1 d2))
       ∧ np.len (followed_by d1 d2) = AudioData.len self + AudioData.len as2)
  ∧ (∀ d1 d2, AudioData.data self = Some d1 → AudioData.data as2 = Some d2 →
       ¬ same_row_shape d1 d2 → AudioData.add self as2 = Raise ValueError).
Proof.
  unfold AudioData.add, AudioData.len, buffer_of, buffer_at.
  split; [| split; [| split]].
  - intros d2 -> -> Hd2. by rewrite init_array, astype16_int16.
  - intros d1 -> -> Hd1. by rewrite init_array, astype16_int16.
  - intros d1 d2 -> -> Hd1 Hd2 Hs. split.
    + rewrite concatenate_followed_by by done. cbn [bind].
      rewrite init_array, astype16_int16; [done |]. by apply int16_followed_by.
    + by apply len_followed_by.
  - intros d1 d2 -> -> Hs. by rewrite concatenate_mismatch.
Qed.

Lemma C8_add_concatenates_witness :
  AudioData.add blank pair = Ok (buffer_of (Arr1 [5; 6]))
  ∧ AudioData.add pair blank = Ok (buffer_of (Arr1 [5; 6]))
  ∧ AudioData.add half_full pair = Ok (buffer_of (Arr1 [5; 6; 0; 0; 5; 6])).
Proof.
  assert (Hp : int16_array (Arr1 [5; 6])).
  { simpl. repeat constructor; unfold is_int16; lia. }
  assert (Hh : int16_array (Arr1 [5; 6; 0; 0])).
  { simpl. repeat constructor; unfold is_int16; lia. }
  split; [| split].
  - apply (proj1 (C8_add_concatenates blank pair)); [reflexivity | reflexivity | exact Hp].
  - apply (proj1 (proj2 (C8_add_concatenates pair blank)));
      [reflexivity | reflexivity | exact Hp].
  - apply (proj1 (proj2 (proj2 (C8_add_concatenates half_full pair)))
             (Arr1 [5; 6; 0; 0]) (Arr1 [5; 6]));
      [reflexivity | reflexivity | exact Hh | exact Hp | exact I].
Defined.

(** C8 as stated fails for a mono and a stereo buffer, which both have
    arrays: [numpy.concatenate] refuses arrays of different row shapes, and
    no buffer is returned. *)
Lemma C8_counterexample :
  AudioData.data pair = Some (Arr1 [5; 6])
  ∧ AudioData.data stereo_frame = Some (Arr2 2 [[1; 2]])
  ∧ AudioData.add pair stereo_frame = Raise ValueError.
Proof. repeat split. Qed.

(** [AudioData() + AudioData()]: with neither array, [__add__] takes its
    first branch and calls [copy] on [None]. *)
Lemma add_blank_blank : AudioData.add blank blank = Raise AttributeError.
Proof. reflexivity. Qed.

(** C10. When both buffers have arrays, the buffer [__add__] returns has
    the sample rate 44100 and the channel count 2 of the constructor's
    defaults, whatever the operands have; [__add__] returns a buffer unless
    the row shapes differ.  A slice has the sample rate of its source. *)
Theorem C10_add_resets_samplerate self as2 d1 d2 :
  AudioData.data self = Some d1 → AudioData.data as2 = Some d2 →
  match AudioData.add self as2 with
  | Ok r => AudioData.samplerate r = 44100 ∧ AudioData.numchannels r = 2
  | Raise e => e = ValueError ∧ ¬ same_row_shape d1 d2
  end
  ∧ ∀ lo hi, ∃ r,
      AudioData.getitem self (ISlice (BInt lo) (BInt hi) None)
        = Ok (AudioData.Buffer r)
      ∧ AudioData.samplerate r = AudioData.samplerate self.
Proof.
  intros Hd1 Hd2. split.
  - unfold AudioData.add. rewrite Hd1, Hd2.
    destruct d1 as [xs | c rows], d2 as [ys | c' rows'];
      simpl np.concatenate; cbn [bind];
      try (rewrite init_array; simpl; done);
      try (split; [done | by intros []]).
    destruct (decide (c = c')) as [-> | Hne]; cbn [bind].
    + rewrite init_array. simpl. done.
    + split; [done |]. simpl. done.
  - intros lo hi. unfold AudioData.getitem, AudioData.getslice. cbn [bind].
    rewrite Hd1. cbn [AudioData.int_bound bind fst snd].
    destruct (getslice_no_step d1 (Some lo) (Some hi)) as [a ->]. cbn [bind].
    rewrite init_array. eexists. split; [reflexivity | reflexivity].
Qed.

Lemma C10_add_resets_samplerate_witness :
  match AudioData.add (buffer_at 8000 (Arr1 [5; 6])) (buffer_at 8000 (Arr1 [7])) with
  | Ok r => AudioData.samplerate r = 44100 ∧ AudioData.numchannels r = 2
  | Raise e => e = ValueError ∧ ¬ same_row_shape (Arr1 [5; 6]) (Arr1 [7])
  end
  ∧ ∀ lo hi, ∃ r,
      AudioData.getitem (buffer_at 8000 (Arr1 [5; 6])) (ISlice (BInt lo) (BInt hi) None)
        = Ok (AudioData.Buffer r)
      ∧ AudioData.samplerate r = AudioData.samplerate (buffer_at 8000 (Arr1 [5; 6])).
Proof.
  apply (C10_add_resets_samplerate
           (buffer_at 8000 (Arr1 [5; 6])) (buffer_at 8000 (Arr1 [7]))
           (Arr1 [5; 6]) (Arr1 [7])); reflexivity.
Defined.

(** ** getpieces *)

Lemma same_row_shape_sym a b : same_row_shape a b → same_row_shape b a.
Proof. destruct a, b; simpl; done. Qed.

Lemma same_row_shape_trans a b c :
  same_row_shape a b → same_row_shape b c → same_row_shape a c.
Proof. destruct a, b, c; simpl; try done. congruence. Qed.

Lemma same_row_shape_silence d n : same_row_shape d (silence d n).
Proof. by destruct d. Qed.

Lemma same_row_shape_followed_by d a b :
  same_row_shape d a → same_row_shape d b → same_row_shape d (followed_by a b).
Proof. destruct d, a, b; simpl; done. Qed.

Lemma same_row_shape_joined d ps :
  Forall (same_row_shape d) ps → same_row_shape d (joined d ps).
Proof.
  induction 1 as [|p ps Hp _ IH]; simpl.
  - apply same_row_shape_silence.
  - by apply same_row_shape_followed_by.
Qed.

Lemma count_followed_by a b :
  same_row_shape a b → count (followed_by a b) = (count a + count b)%nat.
Proof. destruct a, b; simpl; intros Hs; try done; by rewrite length_app. Qed.

Lemma count_silence d n : count (silence d n) = n.
Proof. destruct d; simpl; by rewrite length_replicate. Qed.

Lemma count_joined d ps :
  Forall (same_row_shape d) ps → count (joined d ps) = total_count ps.
Proof.
  induction 1 as [|p ps Hp Hps IH]; simpl.
  - apply count_silence.
  - rewrite count_followed_by, IH; [done |].
    apply same_row_shape_trans with d; [by apply same_row_shape_sym |].
    by apply same_row_shape_joined.
Qed.

Lemma followed_by_assoc a b c :
  same_row_shape a b → same_row_shape a c →
  followed_by (followed_by a b) c = followed_by a (followed_by b c).
Proof.
  destruct a, b, c; simpl; intros Hb Hc; try done; by rewrite app_assoc.
Qed.

Lemma followed_by_empty_l d a :
  same_row_shape d a → followed_by (empty_like d) a = a.
Proof. destruct d, a; simpl; intros Hs; try done. by subst. Qed.

Lemma followed_by_empty_r d a :
  same_row_shape d a → followed_by a (empty_like d) = a.
Proof. destruct d, a; simpl; intros Hs; try done; by rewrite app_nil_r. Qed.

(** Writing [p] right after the written part [w] of a buffer whose rest is
    silence. *)
Lemma overwrite_silence d w p k :
  same_row_shape d w → same_row_shape d p → (count p ≤ k)%nat →
  overwrite (followed_by w (silence d k)) (count w) p
    = followed_by (followed_by w p) (silence d (k - count p)).
Proof.
  destruct d, w, p; simpl; intros Hw Hp Hk; try done; f_equal;
    rewrite take_app_length, drop_app_add, drop_replicate, <- app_assoc; done.
Qed.

Lemma total_duration_spec sr segs ds : ∀ acc,
  Forall2 (λ s n, Float.scale (duration s) sr = Ok n) segs ds →
  total_duration sr segs acc = Ok (acc + total ds).
Proof.
  intros acc Hds. revert acc.
  induction Hds as [|s n segs ds Hn _ IH]; intros acc; simpl.
  - f_equal. lia.
  - rewrite Hn. cbn [bind]. rewrite IH. f_equal. lia.
Qed.

Lemma getslice_same_row_shape d lo hi step a :
  np.getslice d lo hi step = Ok a → same_row_shape d a.
Proof.
  destruct d as [xs | c rows]; unfold np.getslice; intros Ha;
    apply bind_Ok in Ha as (l & _ & Hl); by injection Hl as <-.
Qed.

Lemma same_row_shape_astype16 d a : same_row_shape d a → same_row_shape d (astype16 a).
Proof. by destruct d, a. Qed.

(** What indexing with a segment returns is a buffer of the sample rate of
    the source, holding an [int16] array in the row shape of the source. *)
Lemma getitem_segment_inv src d s it :
  AudioData.data src = Some d →
  AudioData.getitem src (ISeg s) = Ok it →
  ∃ p, it = AudioData.Buffer (buffer_at (AudioData.samplerate src) p)
       ∧ same_row_shape d p ∧ int16_array p.
Proof.
  intros Hd. unfold AudioData.getitem. cbn [bind]. intros Hit.
  apply bind_Ok in Hit as (b & Hb & Hit). injection Hit as <-.
  unfold AudioData.getslice in Hb.
  apply bind_Ok in Hb as (ix & _ & Hb). rewrite Hd in Hb.
  apply bind_Ok in Hb as (a & Ha & Hb). rewrite init_array in Hb.
  injection Hb as <-. exists (astype16 a). split; [| split].
  - unfold buffer_at. by rewrite len_astype16.
  - apply same_row_shape_astype16. by apply getslice_same_row_shape in Ha.
  - apply astype16_is_int16.
Qed.

Lemma append_pieces_spec src d segs ps :
  Forall2 (λ s p, AudioData.getitem src (ISeg s)
                  = Ok (AudioData.Buffer (buffer_at (AudioData.samplerate src) p)))
    segs ps →
  Forall (λ p, same_row_shape d p ∧ int16_array p) ps →
  ∀ w k newAD,
    same_row_shape d w →
    AudioData.data newAD = Some (followed_by w (silence d k)) →
    AudioData.endindex newAD = Z.of_nat (count w) →
    (total_count ps ≤ k)%nat →
    append_pieces src segs newAD
      = Ok {| AudioData.data :=
                Some (followed_by (followed_by w (joined d ps))
                        (silence d (k - total_count ps)));
              AudioData.endindex := Z.of_nat (count w + total_count ps);
              AudioData.samplerate := AudioData.samplerate newAD;
              AudioData.numchannels := AudioData.numchannels newAD |}.
Proof.
  induction 1 as [|s p segs ps Hp _ IH]; intros Hall w k newAD Hw Hdata Hend Hk.
  - simpl. destruct newAD as [dt e sr nc]. simpl in *. subst. do 2 f_equal.
    + by rewrite followed_by_empty_r, Nat.sub_0_r.
    + lia.
  - apply Forall_cons in Hall as [[Hsp Hip] Hall]. simpl in Hk.
    cbn [append_pieces]. rewrite Hp. cbn [bind].
    assert (Hsw : same_row_shape (followed_by w (silence d k)) p).
    { apply same_row_shape_trans with d; [| done]. apply same_row_shape_sym.
      apply same_row_shape_followed_by; [done | apply same_row_shape_silence]. }
    rewrite (append_fits newAD _ (followed_by w (silence d k)) p); try done.
    2: { rewrite Hend. lia. }
    2: { rewrite Hend, !len_count, count_followed_by, count_silence.
         - lia.
         - apply same_row_shape_trans with d;
             [by apply same_row_shape_sym | apply same_row_shape_silence]. }
    cbn [bind]. rewrite Hend, Nat2Z.id, astype16_int16 by done.
    rewrite overwrite_silence by (done || lia).
    rewrite (IH Hall (followed_by w p) (k - count p)%nat); simpl.
    + assert (Hwp : same_row_shape w p).
      { apply same_row_shape_trans with d; [by apply same_row_shape_sym | done]. }
      rewrite (followed_by_assoc w p (joined d ps)).
      * rewrite count_followed_by by done.
        do 3 f_equal; [do 2 f_equal; lia | lia].
      * done.
      * apply same_row_shape_trans with d; [by apply same_row_shape_sym |].
        apply same_row_shape_joined.
        eapply Forall_impl; [exact Hall | by intros ? []].
    + by apply same_row_shape_followed_by.
    + done.
    + rewrite count_followed_by, len_count; [lia |].
      apply same_row_shape_trans with d; [by apply same_row_shape_sym | done].
    + lia.
Qed.

Lemma pieces_shape src d segs ps :
  AudioData.data src = Some d →
  Forall2 (λ s p, AudioData.getitem src (ISeg s)
                  = Ok (AudioData.Buffer (buffer_at (AudioData.samplerate src) p)))
    segs ps →
  Forall (λ p, same_row_shape d p ∧ int16_array p) ps.
Proof.
  intros Hd. induction 1 as [|s p segs ps Hp _ IH]; constructor; [| done].
  destruct (getitem_segment_inv src d s _ Hd Hp) as (p' & Heq & Hs & Hi).
  injection Heq as Heq _. by subst p'.
Qed.

Lemma init_shape sh sr nc d :
  np.zeros sh = Ok d →
  AudioData.init None (Some sh) sr nc
    = Ok {| AudioData.data := Some d; AudioData.endindex := 0;
            AudioData.samplerate := sr; AudioData.numchannels := nc |}.
Proof. intros Hz. unfold AudioData.init. by rewrite Hz. Qed.

Lemma zeros_silence d n :
  0 ≤ n →
  np.zeros (match d with
            | Arr2 c _ => Shape2 n (Z.of_nat c)
            | Arr1 _ => Shape1 n
            end) = Ok (silence d (Z.to_nat n)).
Proof.
  intros Hn. destruct d as [xs | c rows]; simpl.
  - by destruct (Z.ltb_spec n 0); [lia |].
  - destruct (Z.ltb_spec n 0); [lia |].
    destruct (Z.ltb_spec (Z.of_nat c) 0); [lia |]. simpl. by rewrite Nat2Z.id.
Qed.

(** [getpieces], when every segment can be indexed and the pieces fit the
    buffer it allocates. *)
Lemma getpieces_spec src d segs ds ps :
  AudioData.data src = Some d →
  Forall2 (λ s n, Float.scale (duration s) (AudioData.samplerate src) = Ok n) segs ds →
  Forall2 (λ s p, AudioData.getitem src (ISeg s)
                  = Ok (AudioData.Buffer (buffer_at (AudioData.samplerate src) p)))
    segs ps →
  Z.of_nat (total_count ps) ≤ total ds + padding →
  getpieces src segs
    = Ok {| AudioData.data :=
              Some (followed_by (joined d ps)
                      (silence d (Z.to_nat (total ds + padding) - total_count ps)));
            AudioData.endindex := Z.of_nat (total_count ps);
            AudioData.samplerate := AudioData.samplerate src;
            AudioData.numchannels := channels d |}.
Proof.
  intros Hd Hds Hps Hfit. unfold getpieces.
  rewrite (total_duration_spec _ _ ds 0 Hds), Z.add_0_l. cbn [bind]. rewrite Hd.
  pose proof (pieces_shape src d segs ps Hd Hps) as Hall.
  assert (Hz := zeros_silence d (total ds + padding) ltac:(lia)).
  assert (Hrun := λ nc, append_pieces_spec src d segs ps Hps Hall (empty_like d)
      (Z.to_nat (total ds + padding))
      {| AudioData.data := Some (silence d (Z.to_nat (total ds + padding)));
         AudioData.endindex := 0;
         AudioData.samplerate := AudioData.samplerate src;
         AudioData.numchannels := nc |}).
  cbn [AudioData.data AudioData.endindex AudioData.samplerate AudioData.numchannels]
    in Hrun.
  rewrite followed_by_empty_l, followed_by_empty_l in Hrun;
    [| by apply same_row_shape_joined; eapply Forall_impl; [exact Hall | by intros ? []]
     | apply same_row_shape_silence].
  replace (count (empty_like d)) with 0%nat in Hrun by (by destruct d).
  destruct d as [xs | c rows].
  - rewrite (init_shape _ _ _ _ Hz). cbn [bind].
    rewrite Hrun; [done | done | done | done | lia].
  - rewrite (init_shape _ _ _ _ Hz). cbn [bind].
    rewrite Hrun; [done | done | done | done | lia].
Qed.

(** C5 (amended). When every segment can be indexed in the source and the
    pieces fit, [getpieces] returns a buffer whose capacity is the sum over
    the segments of [int(duration * samplerate)] plus the padding of 100000
    frames, in the row shape of the source and at its sample rate, which
    holds the pieces in the order of the segments, followed by zeros, and
    whose write position is the number of frames of the pieces.  For a
    source at 44100 Hz that holds at least [2 * 44100] frames and the
    segments [{start: 0, duration: 1.0}] and [{start: 1.0, duration: 1.0}],
    the capacity is [2 * 44100 + 100000] and the write position is
    [2 * 44100]. *)
Theorem C5_getpieces_assembles :
  (∀ src d segs ds ps,
     AudioData.data src = Some d →
     Forall2 (λ s n, Float.scale (duration s) (AudioData.samplerate src) = Ok n)
       segs ds →
     Forall2 (λ s p, AudioData.getitem src (ISeg s)
                     = Ok (AudioData.Buffer (buffer_at (AudioData.samplerate src) p)))
       segs ps →
     Z.of_nat (total_count ps) ≤ total ds + 100000 →
     ∃ r, getpieces src segs = Ok r
          ∧ AudioData.len r = total ds + 100000
          ∧ AudioData.endindex r = Z.of_nat (total_count ps)
          ∧ AudioData.data r
            = Some (followed_by (joined d ps)
                      (silence d (Z.to_nat (total ds + 100000) - total_count ps)))
          ∧ AudioData.samplerate r = AudioData.samplerate src
          ∧ AudioData.numchannels r = channels d)
  ∧ (∀ src d,
       AudioData.samplerate src = 44100 → AudioData.data src = Some d →
       int16_array d → 2 * 44100 ≤ AudioData.len src →
       ∃ r, getpieces src [seg_0_1; seg_1_1] = Ok r
            ∧ AudioData.len r = 2 * 44100 + 100000
            ∧ AudioData.endindex r = 2 * 44100
            ∧ AudioData.data r
              = Some (followed_by
                        (joined d [between (Z.to_nat 0) (Z.to_nat 44100) d;
                                   between (Z.to_nat 44100) (Z.to_nat 88200) d])
                        (silence d (Z.to_nat 100000)))).
Proof.
  assert (Hgen : ∀ src d segs ds ps,
     AudioData.data src = Some d →
     Forall2 (λ s n, Float.scale (duration s) (AudioData.samplerate src) = Ok n)
       segs ds →
     Forall2 (λ s p, AudioData.getitem src (ISeg s)
                     = Ok (AudioData.Buffer (buffer_at (AudioData.samplerate src) p)))
       segs ps →
     Z.of_nat (total_count ps) ≤ total ds + 100000 →
     ∃ r, getpieces src segs = Ok r
          ∧ AudioData.len r = total ds + 100000
          ∧ AudioData.endindex r = Z.of_nat (total_count ps)
          ∧ AudioData.data r
            = Some (followed_by (joined d ps)
                      (silence d (Z.to_nat (total ds + 100000) - total_count ps)))
          ∧ AudioData.samplerate r = AudioData.samplerate src
          ∧ AudioData.numchannels r = channels d).
  { intros src d segs ds ps Hd Hds Hps Hfit.
    eexists. split; [by apply (getpieces_spec src d segs ds ps) |].
    unfold AudioData.len, padding.
    cbn [AudioData.data AudioData.endindex AudioData.samplerate AudioData.numchannels].
    split; [| done].
    pose proof (pieces_shape src d segs ps Hd Hps) as Hall.
    assert (Hj : same_row_shape d (joined d ps)).
    { apply same_row_shape_joined. eapply Forall_impl; [exact Hall | by intros ? []]. }
    rewrite len_count, count_followed_by, count_silence, count_joined.
    - lia.
    - eapply Forall_impl; [exact Hall | by intros ? []].
    - apply same_row_shape_trans with d;
        [by apply same_row_shape_sym | apply same_row_shape_silence]. }
  split; [exact Hgen |].
  intros src d Hsr Hd Hd16 Hlen.
  unfold AudioData.len in Hlen. rewrite Hd, len_count in Hlen.
  set (p1 := between (Z.to_nat 0) (Z.to_nat 44100) d).
  set (p2 := between (Z.to_nat 44100) (Z.to_nat 88200) d).
  assert (Hc1 : count p1 = Z.to_nat 44100).
  { unfold p1. rewrite count_between; lia. }
  assert (Hc2 : count p2 = Z.to_nat 44100).
  { unfold p2. rewrite count_between; lia. }
  destruct (Hgen src d [seg_0_1; seg_1_1] [44100; 44100] [p1; p2])
    as (r & Hr & Hcap & Hend & Hdata & _).
  - exact Hd.
  - rewrite Hsr.
    constructor; [vm_compute; reflexivity |].
    constructor; [vm_compute; reflexivity |]. constructor.
  - assert (Hs1 : AudioData.seconds src (start seg_0_1) = Ok 0).
    { unfold AudioData.seconds. rewrite Hsr. vm_compute. reflexivity. }
    assert (Hs2 : AudioData.seconds src
                    (Float.add (start seg_0_1) (duration seg_0_1)) = Ok 44100).
    { unfold AudioData.seconds. rewrite Hsr. vm_compute. reflexivity. }
    assert (Hs3 : AudioData.seconds src (start seg_1_1) = Ok 44100).
    { unfold AudioData.seconds. rewrite Hsr. vm_compute. reflexivity. }
    assert (Hs4 : AudioData.seconds src
                    (Float.add (start seg_1_1) (duration seg_1_1)) = Ok 88200).
    { unfold AudioData.seconds. rewrite Hsr. vm_compute. reflexivity. }
    constructor; [| constructor; [| constructor]].
    + rewrite (getitem_segment src d seg_0_1 0 44100 Hd Hs1 Hs2) by lia.
      rewrite astype16_int16 by (apply int16_between; exact Hd16).
      reflexivity.
    + rewrite (getitem_segment src d seg_1_1 44100 88200 Hd Hs3 Hs4) by lia.
      rewrite astype16_int16 by (apply int16_between; exact Hd16).
      reflexivity.
  - unfold total_count, total. cbn [foldr]. rewrite Hc1, Hc2. lia.
  - exists r. split; [exact Hr |].
    unfold total_count, total in Hcap, Hend, Hdata.
    cbn [foldr] in Hcap, Hend, Hdata. rewrite Hc1, Hc2 in Hend, Hdata.
    split; [| split].
    + rewrite Hcap. lia.
    + rewrite Hend. lia.
    + rewrite Hdata.
      replace (Z.to_nat (44100 + (44100 + 0) + 100000)
               - (Z.to_nat 44100 + (Z.to_nat 44100 + 0)))%nat
        with (Z.to_nat 100000) by lia.
      reflexivity.
Qed.

Lemma C5_getpieces_assembles_witness :
  ∃ r, getpieces two_seconds [seg_0_1; seg_1_1] = Ok r
       ∧ AudioData.len r = 2 * 44100 + 100000
       ∧ AudioData.endindex r = 2 * 44100
       ∧ AudioData.data r
         = Some (followed_by
                   (joined (Arr1 (replicate (Z.to_nat 88200) 0))
                      [between (Z.to_nat 0) (Z.to_nat 44100)
                         (Arr1 (replicate (Z.to_nat 88200) 0));
                       between (Z.to_nat 44100) (Z.to_nat 88200)
                         (Arr1 (replicate (Z.to_nat 88200) 0))])
                   (silence (Arr1 (replicate (Z.to_nat 88200) 0)) (Z.to_nat 100000))).
Proof.
  apply (proj2 C5_getpieces_assembles two_seconds
           (Arr1 (replicate (Z.to_nat 88200) 0))).
  - reflexivity.
  - reflexivity.
  - apply Forall_replicate. unfold is_int16. lia.
  - unfold AudioData.len, two_seconds, buffer_at, AudioData.data, np.len.
    rewrite length_replicate. lia.
Defined.

(** C5 as stated fails for a source shorter than the segments: numpy clips
    the slices to the four frames the source has, so four frames are
    written, not [2 * 44100]. *)
Lemma C5_counterexample :
  AudioData.samplerate ramp = 44100
  ∧ (r <- getpieces ramp [seg_0_1; seg_1_1] ;;
     Ok (AudioData.len r, AudioData.endindex r)) = Ok (2 * 44100 + 100000, 4)
  ∧ (r <- getpieces ramp [seg_0_1; seg_1_1] ;; Ok (AudioData.endindex r))
    ≠ Ok (2 * 44100).
Proof.
  split; [reflexivity |]. split; [vm_compute; reflexivity |].
  intros Heq. vm_compute in Heq. discriminate Heq.
Qed.

(** ** save *)

Lemma in_range_signed p c z :
  struct.signed c = true →
  - 2 ^ (8 * Z.of_nat (struct.size p c) - 1) ≤ z < 2 ^ (8 * Z.of_nat (struct.size p c) - 1) →
  struct.in_range p c z = true.
Proof.
  intros Hs Hz. unfold struct.in_range. rewrite Hs.
  apply andb_true_intro. split; [apply Z.leb_le | apply Z.ltb_lt]; lia.
Qed.

Lemma in_range_unsigned p c z :
  struct.signed c = false →
  0 ≤ z < 2 ^ (8 * Z.of_nat (struct.size p c)) →
  struct.in_range p c z = true.
Proof.
  intros Hs Hz. unfold struct.in_range. rewrite Hs.
  apply andb_true_intro. split; [apply Z.leb_le | apply Z.ltb_lt]; lia.
Qed.

(** With a four-byte [long], the header fields are packed without padding. *)
Lemma pack_fmt_ilp32 noc sr sbytes ba :
  0 ≤ noc < 2 ^ 16 → 0 ≤ sr < 2 ^ 32 → 0 ≤ sbytes < 2 ^ 32 → 0 ≤ ba < 2 ^ 16 →
  struct.pack ilp32 AudioData.fmt_format [16; 1; noc; sr; sbytes; ba; 16]
    = Ok (struct.little_endian 4 16
          ++ struct.little_endian 2 1 ++ struct.little_endian 2 noc
          ++ struct.little_endian 4 sr ++ struct.little_endian 4 sbytes
          ++ struct.little_endian 2 ba ++ struct.little_endian 2 16).
Proof.
  intros Hnoc Hsr Hsb Hba. unfold struct.pack, AudioData.fmt_format.
  cbn [struct.pack_from].
  rewrite (in_range_unsigned ilp32 struct.H noc) by done.
  rewrite (in_range_unsigned ilp32 struct.L sr) by done.
  rewrite (in_range_unsigned ilp32 struct.L sbytes) by done.
  rewrite (in_range_unsigned ilp32 struct.H ba) by done.
  reflexivity.
Qed.

Lemma pack_long_ilp32 z :
  - 2 ^ 31 ≤ z < 2 ^ 31 →
  struct.pack ilp32 [struct.l] [z] = Ok (struct.little_endian 4 z).
Proof.
  intros Hz. unfold struct.pack. cbn [struct.pack_from].
  rewrite (in_range_signed ilp32 struct.l z) by done.
  reflexivity.
Qed.

Lemma length_little_endian n z : length (struct.little_endian n z) = n.
Proof. revert z. induction n as [|n IH]; intros z; simpl; [done | by rewrite IH]. Qed.

Lemma length_tobytes p d :
  np.wf d → Z.of_nat (length (np.tofile p d)) = np.nbytes d.
Proof.
  assert (Henc : ∀ xs, length (concat (map (struct.encode p 2) xs))
                       = (2 * length xs)%nat).
  { induction xs as [|x xs IH]; [done |]. cbn [map concat].
    rewrite length_app, IH. unfold struct.encode.
    destruct (big_endian p);
      rewrite ?length_reverse, length_little_endian; simpl; lia. }
  intros Hwf. unfold np.tofile, np.nbytes, np.itemsize. rewrite Henc.
  destruct d as [xs | c rows]; [lia |].
  assert (Hc : length (concat rows) = (length rows * c)%nat).
  { simpl in Hwf. induction Hwf as [|r rows Hr _ IH]; [done |].
    cbn [concat]. rewrite length_app, IH, Hr. simpl. lia. }
  rewrite Hc. lia.
Qed.

(** A write at the end of a file appends. *)
Lemma write_at_end bytes fid :
  pos fid = length (content fid) →
  write bytes fid
    = {| content := content fid ++ bytes; pos := length (content fid ++ bytes) |}.
Proof.
  intros Hpos. unfold write. rewrite Hpos.
  rewrite take_ge, drop_ge, app_nil_r, length_app by lia. done.
Qed.

(** X16. Where a C [long] has four bytes and the platform is
    little-endian, [save] writes the canonical RIFF/WAVE file of the whole
    array: the byte rate is [samplerate * 2 * channels], the block align
    [channels * 2], and the data chunk holds the [nbytes] bytes of the
    array, whatever the write position is. *)
Lemma save_ilp32 self d :
  AudioData.data self = Some d → np.wf d →
  0 ≤ AudioData.samplerate self →
  AudioData.samplerate self * 2 * channels d < 2 ^ 32 →
  AudioData.samplerate self < 2 ^ 32 →
  channels d * 2 < 2 ^ 16 →
  np.nbytes d + 36 < 2 ^ 31 →
  AudioData.save ilp32 self
    = (Ok tt,
       {| content := canonical_wav (channels d) (AudioData.samplerate self)
                       (np.tofile ilp32 d);
          pos := 8 |})
  ∧ Z.of_nat (length (np.tofile ilp32 d)) = np.nbytes d.
Proof.
  intros Hd Hwf Hsr Hsb Hsr' Hba Hnb.
  pose proof (length_tobytes ilp32 d Hwf) as Hlen.
  split; [| exact Hlen].
  assert (Hnoc : 0 ≤ channels d) by (destruct d; simpl; lia).
  assert (Hn0 : 0 ≤ np.nbytes d) by lia.
  unfold AudioData.save. cbv zeta. rewrite Hd.
  change (match d with
          | Arr1 _ => 1
          | Arr2 c _ => Z.of_nat c
          end) with (channels d).
  change (np.itemsize * 8) with 16. change (16 / 8) with 2.
  rewrite pack_fmt_ilp32 by nia.
  rewrite (pack_long_ilp32 (np.nbytes d)) by lia.
  rewrite !write_at_end by reflexivity.
  cbn [content]. unfold tell, seek. cbn [pos content].
  set (hdr := struct.little_endian 4 16 ++ _).
  assert (Hhdr : length hdr = 20%nat).
  { unfold hdr. rewrite !length_app, !length_little_endian. done. }
  assert (Hsize : Z.of_nat (length (((((fopen.(content) ++ str "RIFF")
                     ++ [zero; zero; zero; zero]) ++ str "WAVE") ++ str "fmt ")
                     ++ hdr ++ str "data" ++ struct.little_endian 4 (np.nbytes d)
                     ++ np.tofile ilp32 d)) - 8
                  = 36 + Z.of_nat (length (np.tofile ilp32 d))).
  { rewrite !length_app, Hhdr, length_little_endian. simpl. lia. }
  rewrite <- !app_assoc. rewrite <- !app_assoc in Hsize. rewrite Hsize.
  rewrite pack_long_ilp32 by lia.
  unfold write. cbn [pos content fopen app str list_ascii_of_string take drop].
  rewrite length_little_endian. cbn [Nat.add drop].
  unfold canonical_wav, hdr. rewrite Hlen.
  cbn [str list_ascii_of_string app]. rewrite <- !app_assoc. reflexivity.
Qed.

Lemma init_tone : AudioData.init (Some (Arr1 (replicate 100 0))) None 8000 1 = Ok tone.
Proof. reflexivity. Qed.

(** Where a C [long] has four bytes, [save] writes the canonical file: for
    the mono buffer of 100 samples at 8000 Hz, a byte rate of [8000*2*1] and
    200 bytes of samples. *)
Lemma save_tone_ilp32 :
  AudioData.save ilp32 tone
    = (Ok tt, {| content := canonical_wav 1 8000 (replicate 200 zero); pos := 8 |}).
Proof. vm_compute. reflexivity. Qed.

(** C9 (the code at the failing input). Where a C [long] has eight bytes,
    the file [save] writes for the mono buffer of 100 samples at 8000 Hz is
    not a RIFF/WAVE file: the eight-byte size written at offset 4 replaces
    the ["WAVE"] tag, the fields after ["fmt "] take 36 bytes instead of
    16, with eight-byte longs and four bytes of alignment padding, and the
    size of the data chunk takes eight bytes. *)
Theorem C9_save_on_lp64 :
  ∃ fid,
    AudioData.save lp64 tone = (Ok tt, fid)
    ∧ length (content fid) = 264%nat
    ∧ take 16 (content fid)
      = str "RIFF" ++ struct.little_endian 8 256 ++ str "fmt "
    ∧ take 36 (drop 16 (content fid))
      = struct.little_endian 8 16
        ++ struct.little_endian 2 1 ++ struct.little_endian 2 1
        ++ replicate 4 zero
        ++ struct.little_endian 8 8000 ++ struct.little_endian 8 16000
        ++ struct.little_endian 2 2 ++ struct.little_endian 2 16
    ∧ take 12 (drop 52 (content fid)) = str "data" ++ struct.little_endian 8 200
    ∧ content fid ≠ canonical_wav 1 8000 (replicate 200 zero).
Proof.
  eexists. split; [vm_compute; reflexivity |].
  repeat split; try (vm_compute; reflexivity).
  intros Heq. vm_compute in Heq. discriminate Heq.
Qed.

(** ** Python strings *)

Lemma startswith_spec p s :
  pystr.startswith p s = true ↔ ∃ post, s = p ++ post.
Proof.
  revert s. induction p as [|a p IH]; intros s; simpl.
  - split; [by exists s | done].
  - destruct s as [|b s].
    + split; [done | by intros [post Hpost]].
    + rewrite andb_true_iff, IH. split.
      * intros [Hab [post ->]]. apply Ascii.eqb_eq in Hab as ->. by exists post.
      * intros [post [= -> ->]]. split; [apply Ascii.eqb_refl | by exists post].
Qed.

(** [sub in s] holds exactly when [sub] occurs in [s]. *)
Lemma contains_spec sub s :
  pystr.contains sub s = true ↔ ∃ pre post, s = pre ++ sub ++ post.
Proof.
  split.
  - induction s as [|c s IH]; simpl; rewrite orb_true_iff.
    + intros [H | H]; [| done].
      apply startswith_spec in H as [post Hpost]. by exists [], post.
    + intros [H | H].
      * apply startswith_spec in H as [post Hpost]. by exists [], post.
      * destruct (IH H) as (pre & post & ->). by exists (c :: pre), post.
  - intros (pre & post & ->). induction pre as [|c pre IH]; simpl.
    + assert (H : pystr.startswith sub (sub ++ post) = true)
        by (apply startswith_spec; by exists post).
      destruct (sub ++ post); simpl in *; by rewrite H.
    + by rewrite IH, orb_true_r.
Qed.

(** Every piece of a split is a part of the string. *)
Lemma split_aux_infix sep : ∀ s skip cur piece,
  skip = 0%nat ∨ cur = [] →
  piece ∈ pystr.split_aux sep skip cur s →
  ∃ pre post, cur ++ s = pre ++ piece ++ post.
Proof.
  induction s as [|c s IH]; intros skip cur piece Hinv Hin; simpl in Hin.
  - apply list_elem_of_singleton in Hin as ->. exists [], [].
    by rewrite !app_nil_r.
  - destruct skip as [|k].
    + destruct (pystr.startswith sep (c :: s)).
      * apply elem_of_cons in Hin as [-> | Hin].
        { by exists [], (c :: s). }
        destruct (IH _ _ _ (or_intror eq_refl) Hin) as (pre & post & Heq).
        simpl in Heq. exists (cur ++ c :: pre), post.
        by rewrite Heq, <- app_assoc.
      * destruct (IH _ _ _ (or_introl eq_refl) Hin) as (pre & post & Heq).
        exists pre, post. by rewrite <- Heq, <- app_assoc.
    + destruct Hinv as [? | ->]; [done |].
      destruct (IH _ _ _ (or_intror eq_refl) Hin) as (pre & post & Heq).
      simpl in Heq. exists (c :: pre), post. simpl. by rewrite Heq.
Qed.

Lemma split_contains sep sub s piece :
  piece ∈ pystr.split sep s →
  pystr.contains sub piece = true → pystr.contains sub s = true.
Proof.
  intros Hin Hsub.
  destruct (split_aux_infix sep s 0 [] piece (or_introl eq_refl) Hin)
    as (pre & post & Heq). simpl in Heq.
  apply contains_spec in Hsub as (pre' & post' & ->).
  apply contains_spec. exists (pre ++ pre'), (post' ++ post).
  by rewrite Heq, <- !app_assoc.
Qed.

(** ** audiosettingsfromffmpeg *)

Lemma scan_lines_no_stream lines freq chans out :
  Forall (λ line, audio_stream_line line = false) lines →
  scan_lines lines freq chans out = (Ok (freq, chans), out).
Proof.
  induction 1 as [|line lines Hline _ IH]; cbn [scan_lines]; [done |].
  by rewrite Hline.
Qed.

(** X1. When the text does not mention ["Stream #0"], or does not mention
    ["Audio"], [audiosettingsfromffmpeg] returns the defaults, 44100 Hz and
    two channels, and prints nothing. *)
Theorem audiosettings_defaults (parsestring : list ascii) :
  pystr.contains (str "Stream #0") parsestring = false
  ∨ pystr.contains (str "Audio") parsestring = false →
  audiosettingsfromffmpeg parsestring = (Ok (44100, 2), []).
Proof.
  intros Hno. unfold audiosettingsfromffmpeg.
  apply scan_lines_no_stream, Forall_forall. intros line Hline.
  unfold audio_stream_line. apply andb_false_iff.
  destruct Hno as [Hno | Hno]; [left | right];
    apply not_true_is_false; intros Hc;
    by rewrite (split_contains _ _ _ _ Hline Hc) in Hno.
Qed.

Lemma audiosettings_defaults_witness :
  audiosettingsfromffmpeg (str "x.mp3: no such file or directory")
    = (Ok (44100, 2), []).
Proof.
  apply audiosettings_defaults. left. vm_compute. reflexivity.
Defined.

Lemma scan_segs_chans segs : ∀ freq chans out f c out',
  chans = 1 ∨ chans = 2 →
  scan_segs segs freq chans out = (Ok (f, c), out') → c = 1 ∨ c = 2.
Proof.
  induction segs as [|s segs IH]; intros freq chans out f c out' Hc;
    cbn [scan_segs].
  - by intros [= _ <- _].
  - destruct (pystr.contains (str "Hz") s).
    { destruct (pystr.int _) as [n | e]; [by apply IH | done]. }
    destruct (pystr.contains (str "stereo") s); [apply IH; by right |].
    destruct (pystr.contains (str "mono") s); [apply IH; by left |].
    by apply IH.
Qed.

Lemma scan_lines_chans lines : ∀ freq chans out f c out',
  chans = 1 ∨ chans = 2 →
  scan_lines lines freq chans out = (Ok (f, c), out') → c = 1 ∨ c = 2.
Proof.
  induction lines as [|line lines IH]; intros freq chans out f c out' Hc;
    cbn [scan_lines].
  - by intros [= _ <- _].
  - destruct (audio_stream_line line); [| by apply IH].
    destruct (scan_segs _ freq chans out) as [[[f1 c1] | e] out1] eqn:Hsegs;
      [| done].
    apply IH. by eapply scan_segs_chans.
Qed.

(** X2. Whatever the text, the channel count [audiosettingsfromffmpeg]
    returns is 1 or 2: it is set only by the words ["mono"] and
    ["stereo"], and is 2 when neither occurs. *)
Theorem audiosettings_channels (parsestring : list ascii) freq chans out :
  audiosettingsfromffmpeg parsestring = (Ok (freq, chans), out) →
  chans = 1 ∨ chans = 2.
Proof. apply scan_lines_chans. by right. Qed.

Lemma scan_segs_raises segs : ∀ freq chans out e out',
  scan_segs segs freq chans out = (Raise e, out') →
  e = ValueError ∧ ∃ out0 token, out' = out0 ++ [str "FOUND: " ++ token].
Proof.
  induction segs as [|s segs IH]; intros freq chans out e out';
    cbn [scan_segs]; [done |].
  destruct (pystr.contains (str "Hz") s).
  { destruct (pystr.int _) as [n | e'] eqn:Hint; [by apply IH |].
    intros [= <- <-]. split; [| by eauto].
    unfold pystr.int in Hint. repeat case_match; by simplify_eq. }
  destruct (pystr.contains (str "stereo") s); [by apply IH |].
  destruct (pystr.contains (str "mono") s); by apply IH.
Qed.

Lemma scan_lines_raises lines : ∀ freq chans out e out',
  scan_lines lines freq chans out = (Raise e, out') →
  e = ValueError ∧ ∃ out0 token, out' = out0 ++ [str "FOUND: " ++ token].
Proof.
  induction lines as [|line lines IH]; intros freq chans out e out';
    cbn [scan_lines]; [done |].
  destruct (audio_stream_line line); [| by apply IH].
  destruct (scan_segs _ freq chans out) as [[[f1 c1] | e1] out1] eqn:Hsegs.
  - by apply IH.
  - intros [= <- <-]. by eapply scan_segs_raises.
Qed.

(** X3. [audiosettingsfromffmpeg] raises nothing but the [ValueError] of
    [int], for a piece that mentions ["Hz"] and does not begin with a
    number; the last line it has printed then is ["FOUND: "] and the
    offending token. *)
Theorem audiosettings_raises (parsestring : list ascii) e out :
  audiosettingsfromffmpeg parsestring = (Raise e, out) →
  e = ValueError ∧ ∃ out0 token, out = out0 ++ [str "FOUND: " ++ token].
Proof. apply scan_lines_raises. Qed.

Lemma audiosettings_channels_witness :
  audiosettingsfromffmpeg probe_mono
    = (Ok (22050, 1), [str "FOUND: 22050"; str "MONO"])
  ∧ (1 = 1 ∨ 1 = 2).
Proof.
  split; [vm_compute; reflexivity |].
  apply (audiosettings_channels probe_mono 22050 1 [str "FOUND: 22050"; str "MONO"]).
  vm_compute. reflexivity.
Defined.

Lemma audiosettings_raises_witness :
  audiosettingsfromffmpeg probe_no_commas = (Raise ValueError, [str "FOUND: Stream"])
  ∧ ValueError = ValueError
  ∧ ∃ out0 token, [str "FOUND: Stream"] = out0 ++ [str "FOUND: " ++ token].
Proof.
  split; [vm_compute; reflexivity |].
  apply (audiosettings_raises probe_no_commas ValueError [str "FOUND: Stream"]).
  vm_compute. reflexivity.
Defined.

Lemma split_newline_app a b : ∀ cur,
  pystr.split_aux [newline] 0 cur (a ++ newline :: b)
    = pystr.split_aux [newline] 0 cur a ++ pystr.split [newline] b.
Proof.
  induction a as [|c a IH]; intros cur.
  - reflexivity.
  - cbn [app pystr.split_aux pystr.startswith length Nat.sub].
    destruct (Ascii.eqb newline c); cbn [andb app]; by rewrite IH.
Qed.

Lemma scan_lines_app l1 l2 freq chans out :
  scan_lines (l1 ++ l2) freq chans out
    = match scan_lines l1 freq chans out with
      | (Ok (f, c), out') => scan_lines l2 f c out'
      | (Raise e, out') => (Raise e, out')
      end.
Proof.
  revert freq chans out.
  induction l1 as [|line l1 IH]; intros freq chans out; cbn [app scan_lines];
    [done |].
  destruct (audio_stream_line line); [| by apply IH].
  by destruct (scan_segs _ freq chans out) as [[[f1 c1] | e1] out1].
Qed.

Lemma no_audio_lines text :
  pystr.contains (str "Audio") text = false →
  Forall (λ line, audio_stream_line line = false) (pystr.split [newline] text).
Proof.
  intros Hno. apply Forall_forall. intros line Hline.
  unfold audio_stream_line. apply andb_false_iff. right.
  apply not_true_is_false. intros Hc.
  by rewrite (split_contains _ _ _ _ Hline Hc) in Hno.
Qed.

(** X4. Only the lines that describe an audio stream count: lines that do
    not mention ["Audio"], before or after the others, change neither the
    result of [audiosettingsfromffmpeg] nor what it prints. *)
Theorem audiosettings_other_lines (a b : list ascii) :
  (pystr.contains (str "Audio") b = false →
   audiosettingsfromffmpeg (a ++ newline :: b) = audiosettingsfromffmpeg a)
  ∧ (pystr.contains (str "Audio") a = false →
     audiosettingsfromffmpeg (a ++ newline :: b) = audiosettingsfromffmpeg b).
Proof.
  unfold audiosettingsfromffmpeg, pystr.split.
  rewrite split_newline_app, scan_lines_app. split; intros Hno.
  - destruct (scan_lines (pystr.split_aux _ 0 [] a) 44100 2 [])
      as [[[f c] | e] out]; [| done].
    by apply scan_lines_no_stream, no_audio_lines.
  - by rewrite (scan_lines_no_stream _ _ _ _ (no_audio_lines a Hno)).
Qed.

Lemma audiosettings_other_lines_witness :
  audiosettingsfromffmpeg (probe_mono ++ newline :: str "Press [q] to stop")
    = audiosettingsfromffmpeg probe_mono
  ∧ audiosettingsfromffmpeg (str "FFmpeg version SVN-r13712" ++ newline :: probe_mono)
    = audiosettingsfromffmpeg probe_mono.
Proof.
  split.
  - apply (proj1 (audiosettings_other_lines probe_mono (str "Press [q] to stop"))).
    vm_compute. reflexivity.
  - apply (proj2 (audiosettings_other_lines (str "FFmpeg version SVN-r13712") probe_mono)).
    vm_compute. reflexivity.
Defined.

(** ** struct.unpack and load *)

Lemma byte_value_byte z : struct.byte_value (struct.byte z) = z mod 256.
Proof.
  unfold struct.byte_value, struct.byte.
  pose proof (Z.mod_pos_bound z 256 ltac:(lia)) as Hb.
  rewrite N_ascii_embedding by lia. lia.
Qed.

Lemma byte_value_bound c : 0 ≤ struct.byte_value c < 256.
Proof.
  unfold struct.byte_value. pose proof (N_ascii_bounded c). lia.
Qed.

Lemma decode_h_int16 p b0 b1 : is_int16 (struct.decode_h p b0 b1).
Proof.
  unfold struct.decode_h, is_int16.
  pose proof (byte_value_bound b0). pose proof (byte_value_bound b1).
  destruct (big_endian p); cbn zeta beta iota; zbool; lia.
Qed.

(** Two bytes written for an [int16] number are read back as the number. *)
Lemma decode_encode p z raw :
  is_int16 z →
  struct.decode_all p (struct.encode p 2 z ++ raw) = z :: struct.decode_all p raw.
Proof.
  intros Hz. unfold is_int16 in Hz.
  assert (Hdec : (let u := z mod 256 + 256 * ((z / 256) mod 256) in
                  if u <? 32768 then u else u - 65536) = z).
  { pose proof (Z.div_mod z 256 ltac:(lia)).
    pose proof (Z.mod_pos_bound z 256 ltac:(lia)).
    pose proof (Z.div_mod (z / 256) 256 ltac:(lia)).
    pose proof (Z.mod_pos_bound (z / 256) 256 ltac:(lia)).
    cbn zeta. zbool; lia. }
  unfold struct.encode.
  destruct (big_endian p) eqn:Hp; cbn [struct.little_endian reverse rev_append app
    struct.decode_all]; f_equal; unfold struct.decode_h; rewrite Hp;
    by rewrite !byte_value_byte.
Qed.

Lemma decode_all_encode p xs :
  Forall is_int16 xs →
  struct.decode_all p (concat (map (struct.encode p 2) xs)) = xs.
Proof.
  induction 1 as [|x xs Hx _ IH]; [done |].
  cbn [map concat]. by rewrite decode_encode, IH.
Qed.

Lemma decode_all_int16 p : ∀ raw, Forall is_int16 (struct.decode_all p raw).
Proof.
  fix IH 1. intros [|b0 [|b1 raw]]; cbn [struct.decode_all]; try constructor.
  - apply decode_h_int16.
  - apply IH.
Qed.

Lemma length_decode_all p : ∀ (k : nat) raw,
  length raw = (2 * k)%nat → length (struct.decode_all p raw) = k.
Proof.
  induction k as [|k IH]; intros raw Hlen.
  - by destruct raw.
  - destruct raw as [|b0 [|b1 raw]]; simpl in Hlen; try lia.
    cbn [struct.decode_all length]. rewrite IH; [done | lia].
Qed.

Lemma length_tofile_entries p xs :
  length (concat (map (struct.encode p 2) xs)) = (2 * length xs)%nat.
Proof.
  induction xs as [|x xs IH]; [done |]. cbn [map concat].
  rewrite length_app, IH. unfold struct.encode.
  destruct (big_endian p); rewrite ?length_reverse, length_little_endian; simpl; lia.
Qed.

(** Round trip of the sample bytes: [struct.unpack], with the count of
    the entries, reads back the entries of an [int16] array from the bytes
    [tofile] writes for it, on a platform of either byte order; with any
    other count it raises [struct.error]. *)
Lemma unpack_tofile p (xs : list Z) (count : Z) :
  Forall is_int16 xs →
  struct.unpack_h p count (np.tofile p (Arr1 xs))
    = if count =? Z.of_nat (length xs) then Ok xs else Raise StructError.
Proof.
  intros Hxs. unfold struct.unpack_h, np.tofile.
  rewrite length_tofile_entries, decode_all_encode by done.
  zbool; simpl; try done; lia.
Qed.

Lemma unpack_tofile_witness :
  struct.unpack_h ilp32 3 (np.tofile ilp32 (Arr1 [-2; 300; 32767]))
    = (if 3 =? Z.of_nat (length [-2; 300; 32767]) then Ok [-2; 300; 32767]
       else Raise StructError).
Proof.
  apply (unpack_tofile ilp32 [-2; 300; 32767] 3).
  repeat constructor; unfold is_int16; lia.
Defined.

Lemma length_chunks rows cols : ∀ flat, length (np.chunks rows cols flat) = rows.
Proof. induction rows as [|rows IH]; intros flat; simpl; [done | by rewrite IH]. Qed.

Lemma chunks_int16 rows cols : ∀ flat,
  Forall is_int16 flat → Forall (Forall is_int16) (np.chunks rows cols flat).
Proof.
  induction rows as [|rows IH]; intros flat Hflat; simpl; constructor.
  - by apply Forall_take.
  - by apply IH, Forall_drop.
Qed.


Section LoadFacts.

Variable p : platform.
Variable mkstemp : list ascii.
Variable getstatusoutput : list (list ascii) → list ascii → list ascii.
Variable wave_open : list (list ascii) → list ascii → result (Z * list ascii).

(** The buffer [load] builds has the sample rate and the channel count it
    was given or has parsed. *)
Lemma load_wave_settings ran file samples channels b :
  load_wave p wave_open ran file samples channels = Ok b →
  AudioData.samplerate b = samples ∧ AudioData.numchannels b = channels.
Proof.
  unfold load_wave. intros H.
  apply bind_Ok in H as ([nframes raw] & _ & H).
  apply bind_Ok in H as (data & _ & H).
  apply bind_Ok in H as (arr & _ & H).
  rewrite init_array in H. by injection H as <-.
Qed.

(** Lines 241 to 255: the bytes must be those of [nframes * channels]
    samples; the samples become rows of two when [channels] is 2 and stay
    one flat array otherwise. *)
Lemma load_wave_spec ran file samples channels (nframes : nat) raw :
  wave_open ran file = Ok (Z.of_nat nframes, raw) →
  load_wave p wave_open ran file samples channels
    = if Z.of_nat (length raw) =? 2 * (Z.of_nat nframes * channels)
      then Ok {| AudioData.data :=
                   Some (if channels =? 2
                         then Arr2 2 (np.chunks nframes 2 (struct.decode_all p raw))
                         else Arr1 (struct.decode_all p raw));
                 AudioData.endindex :=
                   if channels =? 2 then Z.of_nat nframes
                   else Z.of_nat nframes * channels;
                 AudioData.samplerate := samples;
                 AudioData.numchannels := channels |}
      else Raise StructError.
Proof.
  intros Hw. unfold load_wave. rewrite Hw. cbn [bind].
  unfold struct.unpack_h.
  destruct (Z.eqb_spec (Z.of_nat (length raw)) (2 * (Z.of_nat nframes * channels)))
    as [Hlen | Hlen]; [| by rewrite orb_true_r].
  destruct (Z.ltb_spec (Z.of_nat nframes * channels) 0); [lia |].
  assert (Hdec : length (struct.decode_all p raw)
                 = Z.to_nat (Z.of_nat nframes * channels)).
  { apply length_decode_all. lia. }
  cbn [orb negb bind].
  destruct (Z.eqb_spec channels 2) as [-> | Hne].
  - unfold np.reshape.
    destruct (Z.ltb_spec (Z.of_nat nframes) 0); [lia |].
    destruct (Z.eqb_spec (Z.of_nat (length (struct.decode_all p raw)))
                (Z.of_nat nframes * 2)); [| lia].
    change (2 <? 0) with false. cbn [orb negb bind].
    rewrite init_array, Nat2Z.id. change (Z.to_nat 2) with 2%nat.
    rewrite astype16_int16
      by (apply chunks_int16, decode_all_int16).
    do 2 f_equal. simpl. by rewrite length_chunks.
  - cbn [bind]. rewrite init_array.
    rewrite astype16_int16 by apply decode_all_int16.
    do 2 f_equal. simpl. lia.
Qed.

(** X5. [load] with both settings given runs no command and prints nothing.
    It raises [struct.error] unless the frames of the file are the bytes of
    [nframes * channels] samples of two bytes.  Otherwise it returns a full
    buffer with the given sample rate and channel count, whose array holds
    the samples as [nframes] rows of two when [channels] is 2, and as one
    flat array of [nframes * channels] samples for any other channel
    count. *)
Theorem load_with_settings file samples channels (nframes : nat) raw :
  wave_open [] file = Ok (Z.of_nat nframes, raw) →
  load p mkstemp getstatusoutput wave_open file (Some samples) (Some channels)
    = (if Z.of_nat (length raw) =? 2 * (Z.of_nat nframes * channels)
       then Ok {| AudioData.data :=
                    Some (if channels =? 2
                          then Arr2 2 (np.chunks nframes 2 (struct.decode_all p raw))
                          else Arr1 (struct.decode_all p raw));
                  AudioData.endindex :=
                    if channels =? 2 then Z.of_nat nframes
                    else Z.of_nat nframes * channels;
                  AudioData.samplerate := samples;
                  AudioData.numchannels := channels |}
       else Raise StructError,
       [], []).
Proof. intros Hw. cbn [load]. by rewrite (load_wave_spec _ _ _ _ _ _ Hw). Qed.


(** X7. [load] called without the sample rate or without the channel count
    ignores the one that is given: it runs exactly two commands, [ffmpeg]
    converting the file to a temporary wave file of 44100 Hz and two
    channels and [ffmpeg -i] on that file, and prints the first one.  The
    buffer it returns is read from the temporary file and carries the
    sample rate and the channel count parsed from what the second command
    printed; the channel count is 1 or 2. *)
Theorem load_without_settings file samples channels b cmds out :
  samples = None ∨ channels = None →
  load p mkstemp getstatusoutput wave_open file samples channels = (Ok b, cmds, out) →
  let cmd := str "ffmpeg -y -i " ++ [dquote] ++ file ++ [dquote]
             ++ str " -ar 44100 -ac 2 " ++ mkstemp in
  let probe := str "ffmpeg -i " ++ mkstemp in
  cmds = [cmd; probe]
  ∧ (∃ out', out = cmd :: out'
       ∧ audiosettingsfromffmpeg (getstatusoutput [cmd] probe)
         = (Ok (AudioData.samplerate b, AudioData.numchannels b), out'))
  ∧ load_wave p wave_open [cmd; probe] mkstemp
      (AudioData.samplerate b) (AudioData.numchannels b) = Ok b
  ∧ (AudioData.numchannels b = 1 ∨ AudioData.numchannels b = 2).
Proof.
  intros Hnone Hload cmd probe.
  assert (Hgen : load p mkstemp getstatusoutput wave_open file samples channels
                 = match audiosettingsfromffmpeg (getstatusoutput [cmd] probe) with
                   | (Raise e, out) => (Raise e, [cmd; probe], cmd :: out)
                   | (Ok (samples, channels), out) =>
                       (load_wave p wave_open [cmd; probe] mkstemp samples channels,
                        [cmd; probe], cmd :: out)
                   end).
  { destruct Hnone as [-> | ->]; [done | by destruct samples]. }
  rewrite Hgen in Hload. clear Hgen.
  destruct (audiosettingsfromffmpeg (getstatusoutput [cmd] probe))
    as [[[freq chans] | e] out'] eqn:Hparse; [| done].
  injection Hload as Hb <- <-.
  unfold audiosettingsfromffmpeg in Hparse.
  apply scan_lines_chans in Hparse as Hchans; [| by right].
  destruct (load_wave_settings _ _ _ _ _ Hb) as [-> ->].
  split; [done |]. split; [by exists out' |]. by split.
Qed.

End LoadFacts.

Lemma load_with_settings_witness :
  load ilp32 tmp_wav shell_mono (wave_frames ilp32 2 [1; -2; 3; 4; 5; 6])
    (str "a.wav") (Some 8000) (Some 3)
  = (Ok {| AudioData.data := Some (Arr1 [1; -2; 3; 4; 5; 6]);
           AudioData.endindex := 6;
           AudioData.samplerate := 8000;
           AudioData.numchannels := 3 |},
     [], []).
Proof.
  exact (load_with_settings ilp32 tmp_wav shell_mono
           (wave_frames ilp32 2 [1; -2; 3; 4; 5; 6])
           (str "a.wav") 8000 3 2
           (np.tofile ilp32 (Arr1 [1; -2; 3; 4; 5; 6])) eq_refl).
Defined.


Lemma load_without_settings_witness :
  let cmd := str "ffmpeg -y -i " ++ [dquote] ++ str "a.mp3" ++ [dquote]
             ++ str " -ar 44100 -ac 2 " ++ tmp_wav in
  let probe := str "ffmpeg -i " ++ tmp_wav in
  let b := {| AudioData.data := Some (Arr1 [1; -2; 3]);
              AudioData.endindex := 3;
              AudioData.samplerate := 22050;
              AudioData.numchannels := 1 |} in
  [cmd; probe] = [cmd; probe]
  ∧ (∃ out', [cmd; str "FOUND: 22050"; str "MONO"] = cmd :: out'
       ∧ audiosettingsfromffmpeg (shell_mono [cmd] probe)
         = (Ok (AudioData.samplerate b, AudioData.numchannels b), out'))
  ∧ load_wave ilp32 (wave_of ilp32 (Arr1 [1; -2; 3])) [cmd; probe] tmp_wav
      (AudioData.samplerate b) (AudioData.numchannels b) = Ok b
  ∧ (AudioData.numchannels b = 1 ∨ AudioData.numchannels b = 2).
Proof.
  exact (load_without_settings ilp32 tmp_wav shell_mono
           (wave_of ilp32 (Arr1 [1; -2; 3])) (str "a.mp3") (Some 8000) None
           _ _ _ (or_intror eq_refl) eq_refl).
Defined.

(** ** AudioAnalysis: the constructor and the cache *)

Section AnalysisFacts.

Import AudioAnalysis.

Variable getter : string → pyval → list call → value.



(** X9. What a read of an attribute leaves alone.  It changes no attribute
    other than the one read, and that one only when it is a cached field
    that is unset; a value that is stored is returned and never fetched
    again; the only call a read can make is one fetch of the field read,
    for the identifier of the instance; and a constructed instance stays
    constructed, with the identifier it had. *)
Theorem getattribute_frame self name log r self' log' :
  getattribute getter self name log = (r, self', log') →
  (∀ n, n ≠ name → attrs self' !! n = attrs self !! n)
  ∧ (name ∉ CACHED_VARIABLES ∨ attrs self !! name ≠ Some PNone →
       r = object_getattribute self name ∧ self' = self ∧ log' = log)
  ∧ (log' = log
     ∨ ∃ id, name ∈ CACHED_VARIABLES ∧ attrs self !! name = Some PNone
             ∧ attrs self !! "id" = Some id ∧ log' = log ++ [Fetch name id])
  ∧ (constructed self →
       constructed self' ∧ attrs self' !! "id" = attrs self !! "id").
Proof.
  unfold getattribute, object_getattribute.
  destruct (bool_decide_reflect (name ∈ CACHED_VARIABLES)) as [Hin | Hout].
  - destruct (attrs self !! name) as [[|v] |] eqn:Hname.
    + assert (Hne : name ≠ "id"%string) by (intros ->; by apply id_not_cached).
      destruct (attrs self !! "id"%string) as [id |] eqn:Hid.
      * intros [= <- <- <-]. split; [| split; [| split]].
        -- intros n Hn. simpl. by rewrite lookup_insert_ne.
        -- intros [Hout | Hnn]; done.
        -- right. by exists id.
        -- intros Hc. split; [by apply constructed_setattr |].
           simpl. by rewrite lookup_insert_ne.
      * intros [= <- <- <-]. split; [done |]. split; [| split].
        -- intros [Hout | Hnn]; done.
        -- by left.
        -- intros [[id Hid'] _]. congruence.
    + intros [= <- <- <-]. split; [done |]. split; [done |]. split; [by left | done].
    + intros [= <- <- <-]. split; [done |]. split; [done |]. split; [by left | done].
  - intros [= <- <- <-]. split; [done |]. split; [done |]. split; [by left | done].
Qed.



(** X11. After [refreshCachedVariables] on a constructed instance, the
    read of any cached field calls nothing, whatever has been called in
    between: it returns the value the refresh fetched for the field and
    leaves the instance as it is. *)
Theorem refresh_then_read self log :
  constructed self →
  ∃ id self',
    attrs self !! "id" = Some id
    ∧ refreshCachedVariables getter self log
      = (Ok tt, self', log ++ map (λ n, Fetch n id) CACHED_VARIABLES)
    ∧ ∀ k name log', CACHED_VARIABLES !! k = Some name →
        getattribute getter self' name log'
          = (Ok (PVal (getter name id
                         (log ++ map (λ n, Fetch n id) (take k CACHED_VARIABLES)))),
             self', log').
Proof.
  intros [[id Hid] Hall].
  destruct (refresh_loop_spec getter id CACHED_VARIABLES self log)
    as (self' & Hrun & Hid' & Hget & _).
  - apply CACHED_VARIABLES_NoDup.
  - by apply Forall_forall.
  - apply id_not_cached.
  - exact Hid.
  - exists id, self'. split; [exact Hid |]. split; [exact Hrun |].
    intros k name log' Hk. apply getattribute_set. by apply Hget.
Qed.

End AnalysisFacts.

Lemma getattribute_frame_witness :
  (∀ n, n ≠ "tempo"%string →
     AudioAnalysis.attrs
       (AudioAnalysis.setattr track "tempo" (PVal (VInt 7))) !! n
     = AudioAnalysis.attrs track !! n)
  ∧ ("tempo"%string ∉ CACHED_VARIABLES
     ∨ AudioAnalysis.attrs track !! "tempo" ≠ Some PNone →
       Ok (PVal (VInt 7)) = AudioAnalysis.object_getattribute track "tempo"
       ∧ AudioAnalysis.setattr track "tempo" (PVal (VInt 7)) = track
       ∧ [Fetch "tempo" (PVal (VStr "TRACK"))] = [])
  ∧ ([Fetch "tempo" (PVal (VStr "TRACK"))] = []
     ∨ ∃ id, "tempo"%string ∈ CACHED_VARIABLES
             ∧ AudioAnalysis.attrs track !! "tempo" = Some PNone
             ∧ AudioAnalysis.attrs track !! "id" = Some id
             ∧ [Fetch "tempo" (PVal (VStr "TRACK"))] = [] ++ [Fetch "tempo" id])
  ∧ (AudioAnalysis.constructed track →
       AudioAnalysis.constructed
         (AudioAnalysis.setattr track "tempo" (PVal (VInt 7)))
       ∧ AudioAnalysis.attrs
           (AudioAnalysis.setattr track "tempo" (PVal (VInt 7))) !! "id"
         = AudioAnalysis.attrs track !! "id").
Proof.
  exact (getattribute_frame getter_seven track "tempo" []
           (Ok (PVal (VInt 7)))
           (AudioAnalysis.setattr track "tempo" (PVal (VInt 7)))
           [Fetch "tempo" (PVal (VStr "TRACK"))] eq_refl).
Defined.


Lemma refresh_then_read_witness :
  ∃ id self',
    AudioAnalysis.attrs track !! "id" = Some id
    ∧ AudioAnalysis.refreshCachedVariables getter_seven track []
      = (Ok tt, self', [] ++ map (λ n, Fetch n id) CACHED_VARIABLES)
    ∧ ∀ k name log', CACHED_VARIABLES !! k = Some name →
        AudioAnalysis.getattribute getter_seven self' name log'
          = (Ok (PVal (getter_seven name id
                         ([] ++ map (λ n, Fetch n id) (take k CACHED_VARIABLES)))),
             self', log').
Proof.
  apply (refresh_then_read getter_seven track []).
  apply (constructed_init no_file upload_TR1 (PVal (VStr "TRACK")) [] track []).
  reflexivity.
Defined.

(** ** AudioData: indexing, concatenation and append *)

(** X12. Indexing a buffer with an integer [i] looks at the whole array,
    whatever the write cursor is: for [-len <= i < len] it returns the frame
    at the position [i], counted from the end when [i] is negative, and for
    any other [i] it raises [IndexError]. *)
Theorem getitem_int self d i :
  AudioData.data self = Some d →
  (- np.len d ≤ i < np.len d →
     ∃ it, AudioData.getitem self (IInt i) = Ok it
           ∧ frame_at d (Z.to_nat (i mod np.len d)) = Some it)
  ∧ (¬ (- np.len d ≤ i < np.len d) →
     AudioData.getitem self (IInt i) = Raise IndexError).
Proof.
  intros Hd. unfold AudioData.getitem. cbn [bind]. unfold AudioData.getsample.
  rewrite Hd.
  assert (Hitem : ∀ A (xs : list A),
    (- Z.of_nat (length xs) ≤ i < Z.of_nat (length xs) →
       ∃ x, np.item xs i = Ok x
            ∧ xs !! Z.to_nat (i mod Z.of_nat (length xs)) = Some x)
    ∧ (¬ (- Z.of_nat (length xs) ≤ i < Z.of_nat (length xs)) →
       np.item xs i = Raise IndexError)).
  { intros A xs. unfold np.item. cbv zeta. split.
    - intros Hi.
      assert (Hmod : i mod Z.of_nat (length xs)
                     = if i <? 0 then i + Z.of_nat (length xs) else i).
      { destruct (Z.ltb_spec i 0).
        - rewrite <- (Z.mod_add i 1) by lia. rewrite Z.mod_small; lia.
        - rewrite Z.mod_small; lia. }
      rewrite Hmod.
      set (j := if i <? 0 then i + Z.of_nat (length xs) else i).
      assert (Hj : 0 ≤ j < Z.of_nat (length xs))
        by (unfold j; destruct (Z.ltb_spec i 0); lia).
      destruct (Z.ltb_spec j 0); [lia |].
      destruct (Z.leb_spec (Z.of_nat (length xs)) j); [lia |]. cbn [orb].
      destruct (lookup_lt_is_Some_2 xs (Z.to_nat j)) as [x Hx]; [lia |].
      rewrite Hx. by exists x.
    - intros Hi.
      destruct (Z.ltb_spec i 0);
        destruct (Z.ltb_spec (i + Z.of_nat (length xs)) 0); try done;
        try (destruct (Z.ltb_spec i 0); [lia |]);
        try (destruct (Z.leb_spec (Z.of_nat (length xs)) (i + Z.of_nat (length xs))));
        try (destruct (Z.leb_spec (Z.of_nat (length xs)) i));
        try done; lia. }
  destruct d as [xs | c rows]; cbn [np.len frame_at].
  - destruct (Hitem Z xs) as [Hin Hout]. split.
    + intros Hi. destruct (Hin Hi) as (x & -> & Hx). cbn [bind].
      exists (AudioData.Sample x). by rewrite Hx.
    + intros Hi. by rewrite (Hout Hi).
  - destruct (Hitem (list Z) rows) as [Hin Hout]. split.
    + intros Hi. destruct (Hin Hi) as (x & -> & Hx). cbn [bind].
      exists (AudioData.Frame x). by rewrite Hx.
    + intros Hi. by rewrite (Hout Hi).
Qed.

Lemma getitem_int_witness :
  (- np.len (Arr1 [5; 6; 0; 0]) ≤ -3 < np.len (Arr1 [5; 6; 0; 0]) →
     ∃ it, AudioData.getitem half_full (IInt (-3)) = Ok it
           ∧ frame_at (Arr1 [5; 6; 0; 0])
               (Z.to_nat (-3 mod np.len (Arr1 [5; 6; 0; 0]))) = Some it)
  ∧ (¬ (- np.len (Arr1 [5; 6; 0; 0]) ≤ -3 < np.len (Arr1 [5; 6; 0; 0])) →
     AudioData.getitem half_full (IInt (-3)) = Raise IndexError).
Proof. exact (getitem_int half_full (Arr1 [5; 6; 0; 0]) (-3) eq_refl). Defined.

Lemma drop_take_sub {A} (m k : nat) (l : list A) :
  drop m (take k l) = take (k - m) (drop m l).
Proof.
  destruct (decide (m ≤ k)%nat) as [Hle | Hgt].
  - rewrite take_drop_commute. f_equal. f_equal. lia.
  - replace (k - m)%nat with 0%nat by lia. rewrite take_0.
    apply drop_ge. rewrite length_take. lia.
Qed.

Lemma between_between lo hi lo' hi' d :
  between lo' hi' (between lo hi d)
    = between (lo + lo') (Nat.min hi (lo + hi')) d.
Proof.
  assert (Hl : ∀ A (l : list A),
    take (hi' - lo') (drop lo' (take (hi - lo) (drop lo l)))
      = take (Nat.min hi (lo + hi') - (lo + lo')) (drop (lo + lo') l)).
  { intros A l. rewrite drop_take_sub, take_take, drop_drop. f_equal. lia. }
  destruct d as [xs | c rows]; simpl; by rewrite Hl.
Qed.

(** A slice with integer bounds and no step, of a buffer of [int16]
    entries. *)
Lemma getitem_int_bounds self d lo hi :
  AudioData.data self = Some d → int16_array d → 0 ≤ lo → 0 ≤ hi →
  AudioData.getitem self (ISlice (BInt lo) (BInt hi) None)
    = Ok (AudioData.Buffer
            (buffer_at (AudioData.samplerate self)
               (between (Z.to_nat lo) (Z.to_nat hi) d))).
Proof.
  intros Hd Hint Hlo Hhi. unfold AudioData.getitem, AudioData.getslice.
  cbn [bind AudioData.int_bound fst snd]. rewrite Hd.
  rewrite getslice_between by done. cbn [bind].
  rewrite init_array, astype16_int16 by (by apply int16_between). done.
Qed.

(** X13. Slices of slices.  A slice [b[lo:hi]] with integer bounds that are
    not negative is a full buffer of the frames at the positions
    [lo <= i < hi] the array has, with the sample rate of [b] and the
    default channel count; and a slice of that slice is the slice of [b]
    itself between the added bounds: [b[lo:hi][lo2:hi2]] is
    [b[lo+lo2 : min(hi, lo+hi2)]]. *)
Theorem slice_of_slice self d lo hi lo' hi' :
  AudioData.data self = Some d → int16_array d →
  0 ≤ lo → 0 ≤ hi → 0 ≤ lo' → 0 ≤ hi' →
  ∃ b,
    AudioData.getitem self (ISlice (BInt lo) (BInt hi) None)
      = Ok (AudioData.Buffer b)
    ∧ b = buffer_at (AudioData.samplerate self)
            (between (Z.to_nat lo) (Z.to_nat hi) d)
    ∧ AudioData.getitem b (ISlice (BInt lo') (BInt hi') None)
      = AudioData.getitem self
          (ISlice (BInt (lo + lo')) (BInt (Z.min hi (lo + hi'))) None).
Proof.
  intros Hd Hint Hlo Hhi Hlo' Hhi'. eexists.
  split; [by apply getitem_int_bounds |]. split; [reflexivity |].
  rewrite (getitem_int_bounds _ (between (Z.to_nat lo) (Z.to_nat hi) d) lo' hi')
    by (done || by apply int16_between).
  rewrite (getitem_int_bounds self d (lo + lo') (Z.min hi (lo + hi')))
    by (done || lia).
  rewrite between_between. cbn [buffer_at AudioData.samplerate].
  do 3 f_equal. f_equal; lia.
Qed.

Lemma slice_of_slice_witness :
  ∃ b,
    AudioData.getitem ramp (ISlice (BInt 1) (BInt 3) None) = Ok (AudioData.Buffer b)
    ∧ b = buffer_at (AudioData.samplerate ramp)
            (between (Z.to_nat 1) (Z.to_nat 3) (Arr1 [0; 1; 2; 3]))
    ∧ AudioData.getitem b (ISlice (BInt 1) (BInt 5) None)
      = AudioData.getitem ramp (ISlice (BInt (1 + 1)) (BInt (Z.min 3 (1 + 5))) None).
Proof.
  apply (slice_of_slice ramp (Arr1 [0; 1; 2; 3]) 1 3 1 5).
  - reflexivity.
  - repeat constructor; unfold is_int16; lia.
  - lia.
  - lia.
  - lia.
  - lia.
Defined.

(** The sum of two buffers with arrays of [int16] entries and the same row
    shape. *)
Lemma add_arrays a b d1 d2 :
  AudioData.data a = Some d1 → AudioData.data b = Some d2 →
  int16_array d1 → int16_array d2 → same_row_shape d1 d2 →
  AudioData.add a b = Ok (buffer_of (followed_by d1 d2)).
Proof.
  intros Ha Hb H1 H2 Hs. unfold AudioData.add. rewrite Ha, Hb.
  rewrite concatenate_followed_by by done. cbn [bind].
  rewrite init_array, astype16_int16 by (by apply int16_followed_by). done.
Qed.

(** X14. [+] on buffers is associative: for three buffers with arrays of
    the same row shape, [(a + b) + c] and [a + (b + c)] are the same
    buffer, of [len(a) + len(b) + len(c)] frames. *)
Theorem add_assoc a b c d1 d2 d3 :
  AudioData.data a = Some d1 → AudioData.data b = Some d2 →
  AudioData.data c = Some d3 →
  int16_array d1 → int16_array d2 → int16_array d3 →
  same_row_shape d1 d2 → same_row_shape d2 d3 →
  ∃ r,
    (ab <- AudioData.add a b ;; AudioData.add ab c) = Ok r
    ∧ (bc <- AudioData.add b c ;; AudioData.add a bc) = Ok r
    ∧ AudioData.len r = AudioData.len a + AudioData.len b + AudioData.len c.
Proof.
  intros Ha Hb Hc H1 H2 H3 H12 H23.
  assert (H13 : same_row_shape d1 d3) by (by eapply same_row_shape_trans).
  exists (buffer_of (followed_by d1 (followed_by d2 d3))).
  rewrite (add_arrays a b d1 d2), (add_arrays b c d2 d3) by done. cbn [bind].
  split; [| split].
  - rewrite (add_arrays _ c (followed_by d1 d2) d3); try done.
    + by rewrite followed_by_assoc.
    + by apply int16_followed_by.
    + apply same_row_shape_sym, same_row_shape_followed_by;
        by apply same_row_shape_sym.
  - apply (add_arrays a _ d1 (followed_by d2 d3)); try done.
    + by apply int16_followed_by.
    + by apply same_row_shape_followed_by.
  - unfold AudioData.len. rewrite Ha, Hb, Hc. cbn [buffer_of buffer_at AudioData.data].
    rewrite !len_followed_by; try done; [lia |].
    by apply same_row_shape_followed_by.
Qed.

Lemma add_assoc_witness :
  ∃ r,
    (ab <- AudioData.add pair single ;; AudioData.add ab ramp) = Ok r
    ∧ (bc <- AudioData.add single ramp ;; AudioData.add pair bc) = Ok r
    ∧ AudioData.len r
      = AudioData.len pair + AudioData.len single + AudioData.len ramp.
Proof.
  apply (add_assoc pair single ramp (Arr1 [5; 6]) (Arr1 [7]) (Arr1 [0; 1; 2; 3]));
    try reflexivity; try exact I;
    repeat constructor; unfold is_int16; lia.
Defined.


(** The selection of a slice without a step lies within the array, and
    starts at the lower bound when that is not negative. *)
Lemma slice_indices_within start stop n :
  0 ≤ n →
  ∃ s k,
    np.slice_indices (Some start) (Some stop) None n = Ok (s, 1, k)
    ∧ 0 ≤ s ∧ 0 ≤ k ∧ s + k ≤ n
    ∧ (0 ≤ start → s = Z.min start n).
Proof.
  intros Hn. unfold np.slice_indices. cbn [default]. change (1 =? 0) with false.
  change (1 <? 0) with false. cbv zeta. cbn iota.
  eexists _, _. split; [reflexivity |].
  rewrite !Z.div_1_r.
  destruct (Z.ltb_spec start 0); destruct (Z.ltb_spec (start + n) 0);
    destruct (Z.leb_spec n start);
    destruct (Z.ltb_spec stop 0); destruct (Z.ltb_spec (stop + n) 0);
    destruct (Z.leb_spec n stop);
    zbool; lia.
Qed.

Lemma broadcast_length {A} (k : nat) (src new : list A) :
  np.broadcast k src = Ok new → length new = k.
Proof.
  unfold np.broadcast. destruct (decide (length src = k)) as [Hk | Hk].
  - by intros [= <-].
  - destruct src as [|x [|y src]]; try done.
    intros [= <-]. apply length_replicate.
Qed.

Lemma source1_length k src new : np.source1 k src = Ok new → length new = k.
Proof.
  destruct src as [ys | c [|row [|row' rows]]]; simpl; try done;
    apply broadcast_length.
Qed.

Lemma source2_length c k src new : np.source2 c k src = Ok new → length new = k.
Proof.
  destruct src as [ys | c' rows]; simpl.
  - intros H. apply bind_Ok in H as (row & _ & [= <-]). apply length_replicate.
  - destruct (decide (c' = c)); [apply broadcast_length |].
    destruct (decide (c' = 1%nat)); [apply broadcast_length | done].
Qed.

(** What a slice assignment leaves alone: the length and the row shape of
    the array, its frames before the lower bound, and the range of its
    entries. *)
Lemma setslice_frame dst e stop src dst' :
  0 ≤ e → np.setslice dst e stop src = Ok dst' →
  np.len dst' = np.len dst
  ∧ same_row_shape dst dst'
  ∧ between 0 (Z.to_nat e) dst' = between 0 (Z.to_nat e) dst
  ∧ (int16_array dst → int16_array dst').
Proof.
  intros He. unfold np.setslice.
  destruct (slice_indices_within e stop (np.len dst) (len_nonneg dst))
    as (s & k & -> & Hs & Hk & Hsk & Hmin).
  specialize (Hmin He). cbn [bind fst snd].
  assert (Hlist : ∀ A (xs new : list A),
    Z.of_nat (length xs) = np.len dst → length new = Z.to_nat k →
    length (take (Z.to_nat s) xs ++ new ++ drop (Z.to_nat s + Z.to_nat k) xs)
      = length xs
    ∧ take (Z.to_nat e) (take (Z.to_nat s) xs ++ new
                         ++ drop (Z.to_nat s + Z.to_nat k) xs)
      = take (Z.to_nat e) xs).
  { intros A xs new Hxs Hnew. split.
    - rewrite !length_app, length_take, length_drop, Hnew. lia.
    - destruct (decide (e ≤ np.len dst)) as [Hle | Hgt].
      + replace s with e in * by lia.
        rewrite take_app_le by (rewrite length_take; lia).
        rewrite take_take. f_equal. lia.
      + replace s with (np.len dst) in * by lia.
        assert (k = 0) as -> by lia.
        destruct new; [| done]. cbn [app].
        rewrite <- Hxs, Nat2Z.id, Nat.add_0_r, take_drop. done. }
  destruct dst as [xs | c rows]; cbn [np.len] in *.
  - intros H. apply bind_Ok in H as (new & Hnew & [= <-]).
    apply source1_length in Hnew.
    destruct (Hlist Z xs (map np.wrap16 new)) as [Hlen Htake];
      [done | by rewrite length_map |].
    cbn [np.len same_row_shape between int16_array].
    rewrite Nat.sub_0_r, !drop_0, Htake, Hlen.
    split; [done |]. split; [done |]. split; [done |].
    intros Hint. apply Forall_app. split; [by apply Forall_take |].
    apply Forall_app. split; [| by apply Forall_drop].
    apply Forall_map, Forall_forall. intros x _. apply wrap16_is_int16.
  - intros H. apply bind_Ok in H as (new & Hnew & [= <-]).
    apply source2_length in Hnew.
    destruct (Hlist (list Z) rows (map (map np.wrap16) new)) as [Hlen Htake];
      [done | by rewrite length_map |].
    cbn [np.len same_row_shape between int16_array].
    rewrite Nat.sub_0_r, !drop_0, Htake, Hlen.
    split; [done |]. split; [done |]. split; [done |].
    intros Hint. apply Forall_app. split; [by apply Forall_take |].
    apply Forall_app. split; [| by apply Forall_drop].
    apply Forall_map, Forall_forall. intros row _.
    apply Forall_map, Forall_forall. intros x _. apply wrap16_is_int16.
Qed.

(** X15. What [append] never touches.  Whenever an append returns, and
    whatever numpy broadcast to make it return, the buffer has the array
    length, the row shape, the sample rate and the channel count it had,
    its frames before the write cursor are as they were, its entries are
    still [int16] numbers, and the write cursor has advanced by the length
    of the buffer appended. *)
Theorem append_frame self as2 d r :
  AudioData.data self = Some d → 0 ≤ AudioData.endindex self →
  AudioData.append self as2 = Ok r →
  ∃ d',
    AudioData.data r = Some d'
    ∧ np.len d' = np.len d
    ∧ same_row_shape d d'
    ∧ between 0 (Z.to_nat (AudioData.endindex self)) d'
      = between 0 (Z.to_nat (AudioData.endindex self)) d
    ∧ (int16_array d → int16_array d')
    ∧ AudioData.endindex r = AudioData.endindex self + AudioData.len as2
    ∧ AudioData.samplerate r = AudioData.samplerate self
    ∧ AudioData.numchannels r = AudioData.numchannels self.
Proof.
  intros Hd He. unfold AudioData.append.
  destruct (AudioData.data as2) as [d2 |] eqn:Hd2; [| done].
  rewrite getslice_all, Hd. cbn [bind]. intros H.
  apply bind_Ok in H as (d' & Hset & [= <-]).
  destruct (setslice_frame _ _ _ _ _ He Hset) as (Hlen & Hshape & Hpre & Hint).
  exists d'. cbn [AudioData.data AudioData.endindex AudioData.samplerate
                  AudioData.numchannels].
  split; [done |]. split; [done |]. split; [done |]. split; [done |].
  split; [done |]. split; [done |]. split; done.
Qed.

Lemma append_frame_witness :
  ∃ d',
    AudioData.data {| AudioData.data := Some (Arr1 [5; 6; 7; 0]);
                      AudioData.endindex := 3;
                      AudioData.samplerate := 44100;
                      AudioData.numchannels := 2 |} = Some d'
    ∧ np.len d' = np.len (Arr1 [5; 6; 0; 0])
    ∧ same_row_shape (Arr1 [5; 6; 0; 0]) d'
    ∧ between 0 (Z.to_nat (AudioData.endindex half_full)) d'
      = between 0 (Z.to_nat (AudioData.endindex half_full)) (Arr1 [5; 6; 0; 0])
    ∧ (int16_array (Arr1 [5; 6; 0; 0]) → int16_array d')
    ∧ 3 = AudioData.endindex half_full + AudioData.len single
    ∧ 44100 = AudioData.samplerate half_full
    ∧ 2 = AudioData.numchannels half_full.
Proof.
  refine (append_frame half_full single (Arr1 [5; 6; 0; 0])
            {| AudioData.data := Some (Arr1 [5; 6; 7; 0]);
               AudioData.endindex := 3;
               AudioData.samplerate := 44100;
               AudioData.numchannels := 2 |} eq_refl _ eq_refl).
  simpl. lia.
Defined.

(** ** save: what a failure leaves behind *)



(** ** getpieces: a negative total *)

(** X18. Segments whose durations, each converted to a number of samples,
    add up to less than minus the padding make [getpieces] raise
    [ValueError], for numpy allocates no array of a negative length. *)
Theorem getpieces_negative src d segs ds :
  AudioData.data src = Some d →
  Forall2 (λ s n, Float.scale (duration s) (AudioData.samplerate src) = Ok n) segs ds →
  total ds + padding < 0 →
  getpieces src segs = Raise ValueError.
Proof.
  intros Hd Hds Hneg. unfold getpieces.
  rewrite (total_duration_spec _ _ ds) by done. cbn [bind]. rewrite Hd, Z.add_0_l.
  destruct d as [xs | c rows]; unfold AudioData.init, np.zeros;
    destruct (Z.ltb_spec (total ds + padding) 0); try lia; reflexivity.
Qed.

Lemma getpieces_negative_witness : getpieces ramp [seg_back] = Raise ValueError.
Proof.
  apply (getpieces_negative ramp (Arr1 [0; 1; 2; 3]) [seg_back] [-132300]).
  - reflexivity.
  - repeat constructor.
  - reflexivity.
Defined.

Lemma save_ilp32_witness :
  AudioData.save ilp32 (buffer_at 44100 (Arr2 2 [[1; -2]; [300; -32768]]))
    = (Ok tt,
       {| content := canonical_wav 2 44100
                       (np.tofile ilp32 (Arr2 2 [[1; -2]; [300; -32768]]));
          pos := 8 |})
  ∧ Z.of_nat (length (np.tofile ilp32 (Arr2 2 [[1; -2]; [300; -32768]])))
    = np.nbytes (Arr2 2 [[1; -2]; [300; -32768]]).
Proof.
  apply (save_ilp32 (buffer_at 44100 (Arr2 2 [[1; -2]; [300; -32768]]))
           (Arr2 2 [[1; -2]; [300; -32768]])).
  - reflexivity.
  - repeat constructor.
  - discriminate.
  - reflexivity.
  - reflexivity.
  - reflexivity.
  - reflexivity.
Defined.
